(** * The [terraform generate] command of the Auth0 CLI

    A shallow embedding of [internal/cli/terraform.go]: the aggregation of
    import data over a list of fetchers ([fetchImportData]), the generation
    of [main.tf] and [auth0_import.tf] ([generateTerraformConfigFiles],
    [createMainFile], [createImportFile]) and the command that chains them
    ([generateTerraformCmdRun]).

    Go slices are lists (a nil slice and an empty slice are both [[]]), Go
    [error] values are an inductive type with [option error] for a possibly
    nil error, and the calls into the [os] package are state passing over a
    [world] that holds the files, the log of the calls made and the
    messages rendered to the user. *)

From Stdlib Require Import ZArith Lia Ascii.
From stdpp Require Import base option list strings gmap.

Local Open Scope Z_scope.

(** ** Strings *)

(** The line feed and the double quote, for the string constants of the
    source that contain them. *)
Definition nl : string := String "010"%char EmptyString.
Definition dq : string := String "034"%char EmptyString.

(** [quoted s] is [s] between double quotes. *)
Definition quoted (s : string) : string := dq +:+ s +:+ dq.

(** Concatenation of a list of strings, as successive writes to one file. *)
Fixpoint concat_str (l : list string) : string :=
  match l with
  | [] => ""
  | s :: l' => s +:+ concat_str l'
  end.

(** ** Errors *)

(** The error numbers that matter to [os.IsExist], and some that do not. *)
Inductive Errno := EEXIST | ENOTEMPTY | ENOTDIR | ENOENT | EACCES | ENOSPC | EIO.

(** Go [error] values: [errors.New], the [*fs.PathError] of the [os]
    package, the errors of [text/template] and the errors of a fetcher
    (a failure of the Management API). *)
Inductive error :=
| errors_New (text : string)
| PathError (op : string) (path : string) (errno : Errno)
| TemplateError (text : string)
| APIError (text : string).

(** [os.IsExist]: the error is known to report that a file or directory
    already exists. *)
Definition os_IsExist (err : error) : bool :=
  match err with
  | PathError _ _ EEXIST | PathError _ _ ENOTEMPTY => true
  | _ => false
  end.

(** ** Import data *)

(** Modelled from the spec: the struct [importDataItem] and the slice type
    [importDataList] are declared outside the file at hand; the template
    reads the fields [ImportID] and [ResourceName], both strings. *)
Record importDataItem := {
  ImportID : string;
  ResourceName : string
}.

Abbreviation importDataList := (list importDataItem).

(** ** Fetchers and aggregation *)

Section Fetch.

(** [context.Context], opaque here. *)
Context {context : Type}.

(** The interface [resourceDataFetcher]: one method, which returns the
    records and the error side by side, as Go does (nothing prevents an
    implementation from returning records together with an error). *)
Record resourceDataFetcher := {
  FetchData : context → importDataList * option error
}.

(** [fetchImportData], with the loop over the fetchers as a recursion
    that carries the growing [importData]. *)
Fixpoint fetchImportData_loop (ctx : context) (importData : importDataList)
    (fetchers : list resourceDataFetcher) : importDataList * option error :=
  match fetchers with
  | [] => (importData, None)
  | fetcher :: rest =>
      let '(data, err) := FetchData fetcher ctx in
      match err with
      | Some e => ([], Some e)
      | None => fetchImportData_loop ctx (importData ++ data) rest
      end
  end.

Definition fetchImportData (ctx : context)
    (fetchers : list resourceDataFetcher) : importDataList * option error :=
  fetchImportData_loop ctx [] fetchers.

End Fetch.

Arguments resourceDataFetcher : clear implicits.

(** ** The fragment of [text/template] that the import file uses

    [createImportFile] parses a template and executes it on the list of
    records. The template uses plain text, [{{range .}} ... {{end}}] and
    field actions [{{ .Name }}]; this is the fragment modelled. Anything
    else is a parse error here. [text/template] does not escape what it
    prints: a string field is written as it is. *)

Module Template.

(** Lexical items: text outside the delimiters, and the body of an action
    between "{{" and "}}". *)
Inductive item :=
| itemText (text : string)
| itemAction (body : string).

Definition emit_text (cur : string) (rest : option (list item)) : option (list item) :=
  match cur with
  | EmptyString => rest
  | _ => cons (itemText cur) <$> rest
  end.

Definition snoc_char (cur : string) (c : ascii) : string :=
  cur +:+ String c EmptyString.

(** The lexer: [inAction] says on which side of a left delimiter the scan
    is, [cur] is the text or action body scanned so far. [None] is an
    unclosed action. Empty text items are not emitted. *)
Fixpoint lex (inAction : bool) (cur : string) (s : string) : option (list item) :=
  match s with
  | EmptyString => if inAction then None else emit_text cur (Some [])
  | String c s' =>
      if inAction then
        match c, s' with
        | "}"%char, String "}"%char s'' => cons (itemAction cur) <$> lex false "" s''
        | _, _ => lex true (snoc_char cur c) s'
        end
      else
        match c, s' with
        | "{"%char, String "{"%char s'' => emit_text cur (lex true "" s'')
        | _, _ => lex false (snoc_char cur c) s'
        end
  end.

(** The actions of the fragment. *)
Inductive action :=
| ActRange
| ActEnd
| ActField (ident : string)
| ActUnsupported.

Definition parse_action (body : string) : action :=
  match String.words body with
  | [w1; w2] =>
      if decide (w1 = "range" ∧ w2 = ".") then ActRange else ActUnsupported
  | [w] =>
      if decide (w = "end") then ActEnd
      else match w with
           | String "."%char (String c ident) => ActField (String c ident)
           | _ => ActUnsupported
           end
  | _ => ActUnsupported
  end.

(** The parse tree. *)
#[warnings="-register-all"]
Inductive node :=
| TextNode (text : string)
| FieldNode (ident : string)
| RangeNode (body : list node).

(** The parser: [cur] is the list under construction, most recent node
    first, [stack] the lists of the enclosing ranges. *)
Fixpoint parse_items (items : list item) (cur : list node)
    (stack : list (list node)) : error + list node :=
  match items with
  | [] =>
      match stack with
      | [] => inr (rev cur)
      | _ :: _ => inl (TemplateError "unexpected EOF")
      end
  | itemText text :: rest => parse_items rest (TextNode text :: cur) stack
  | itemAction body :: rest =>
      match parse_action body with
      | ActRange => parse_items rest [] (cur :: stack)
      | ActEnd =>
          match stack with
          | [] => inl (TemplateError "unexpected {{end}}")
          | up :: stack' => parse_items rest (RangeNode (rev cur) :: up) stack'
          end
      | ActField ident => parse_items rest (FieldNode ident :: cur) stack
      | ActUnsupported => inl (TemplateError "unsupported action")
      end
  end.

(** [template.New(name).Parse(text)]. *)
Definition Parse (text : string) : error + list node :=
  match lex false "" text with
  | None => inl (TemplateError "unclosed action")
  | Some items => parse_items items [] []
  end.

(** The values that dot takes: the list handed to [Execute], and one
    record inside the range. *)
Inductive value :=
| VList (l : importDataList)
| VItem (i : importDataItem).

Definition field (dot : value) (ident : string) : error + string :=
  match dot with
  | VItem i =>
      if decide (ident = "ImportID") then inr (ImportID i)
      else if decide (ident = "ResourceName") then inr (ResourceName i)
      else inl (TemplateError "can't evaluate field")
  | VList _ => inl (TemplateError "can't evaluate field")
  end.

(** Execution yields the successive writes to the output, and the error
    that stopped it, if any. *)
Definition output : Type := list string * option error.

Definition andThen (a b : output) : output :=
  match a.2 with
  | Some _ => a
  | None => (a.1 ++ b.1, b.2)
  end.

Fixpoint exec_node (dot : value) (n : node) {struct n} : output :=
  match n with
  | TextNode text => ([text], None)
  | FieldNode ident =>
      match field dot ident with
      | inl e => ([], Some e)
      | inr s => ([s], None)
      end
  | RangeNode body =>
      match dot with
      | VList l =>
          let walk :=
            fix walk (d : value) (ns : list node) {struct ns} : output :=
              match ns with
              | [] => ([], None)
              | n' :: ns' => andThen (exec_node d n') (walk d ns')
              end in
          (fix each (l : importDataList) : output :=
             match l with
             | [] => ([], None)
             | i :: l' => andThen (walk (VItem i) body) (each l')
             end) l
      | VItem _ => ([], Some (TemplateError "range can't iterate over item"))
      end
  end.

Fixpoint exec_list (dot : value) (ns : list node) : output :=
  match ns with
  | [] => ([], None)
  | n :: ns' => andThen (exec_node dot n) (exec_list dot ns')
  end.

(** The writes of [t.Execute(w, data)]. *)
Definition Execute (t : list node) (data : importDataList) : output :=
  exec_list (VList data) t.

End Template.

(** ** [path.Join] *)

Module path.

(** The elements of a path, between slashes. *)
Fixpoint split_go (cur : string) (s : string) : list string :=
  match s with
  | EmptyString => [cur]
  | String c s' =>
      if decide (c = "/"%char) then cur :: split_go "" s'
      else split_go (cur +:+ String c EmptyString) s'
  end.

Definition split (s : string) : list string := split_go "" s.

Definition rooted (s : string) : bool :=
  match s with
  | String "/"%char _ => true
  | _ => false
  end.

(** One element of [Clean]'s scan. [out] holds the elements kept so far,
    the last one first. Empty and [.] elements are dropped; a [..] removes
    the element before it when that is a name, is kept when the path is not
    rooted, and is dropped at the root. *)
Definition clean_step (isRooted : bool) (out : list string) (elem : string) : list string :=
  if decide (elem = "" ∨ elem = ".") then out
  else if decide (elem = "..") then
    match out with
    | top :: out' =>
        if decide (top = "..") then (if isRooted then out else ".." :: out)
        else out'
    | [] => if isRooted then [] else [".."]
    end
  else elem :: out.

(** [strings.Join(elems, "/")]. *)
Fixpoint join_slash (elems : list string) : string :=
  match elems with
  | [] => ""
  | [e] => e
  | e :: rest => e +:+ "/" +:+ join_slash rest
  end.

(** [path.Clean]: the shortest path equivalent to [p] by lexical
    processing. *)
Definition Clean (p : string) : string :=
  if decide (p = "") then "."
  else
    let out := fold_left (clean_step (rooted p)) (split p) [] in
    let body := join_slash (rev out) in
    if rooted p then "/" +:+ body
    else if decide (body = "") then "." else body.

(** [path.Join]: the elements joined by slashes, empty leading elements
    ignored, the result cleaned; the empty string when every element is
    empty. *)
Fixpoint Join (elem : list string) : string :=
  match elem with
  | [] => ""
  | e :: rest =>
      if decide (e = "") then Join rest else Clean (join_slash (e :: rest))
  end.

End path.

(** ** The world outside the program *)

(** Octal constants, most significant digit first. *)
Definition octal (digits : list Z) : Z :=
  fold_left (λ acc d, 8 * acc + d) digits 0.

(** The calls the file at hand makes into the [os] package: [os.MkdirAll],
    [os.Create], a write to an open file ([file.WriteString], or one
    [Write] of the template's execution) and [file.Close]. An open file is
    named by the path it was created at. *)
Inductive syscall :=
| MkdirAll (path : string) (perm : Z)
| Create (name : string)
| Write (name : string) (data : string)
| Close (name : string).

(** The world: the content of the regular files, the calls made so far with
    their outcomes (oldest first), and the messages rendered to the user.
    The directory tree is the operating system's: [MkdirAll] is recorded
    with its outcome and nothing more. *)
Record world := {
  files : gmap string string;
  trace : list (syscall * option error);
  rendered : list string
}.

(** What a call that succeeded does to the files: [Create] makes the file
    empty (creating or truncating it), [Write] appends to it. *)
Definition apply_call (c : syscall) (fs : gmap string string) : gmap string string :=
  match c with
  | Create name => <[name := ""]> fs
  | Write name data => alter (λ old, old +:+ data) name fs
  | MkdirAll _ _ | Close _ => fs
  end.

(** The first [n] characters of [s], all of [s] when it has fewer. *)
Fixpoint str_take (n : nat) (s : string) : string :=
  match n, s with
  | O, _ => ""
  | S _, EmptyString => ""
  | S n', String c s' => String c (str_take n' s')
  end.

(** What a call that failed does to the files: a [Write] leaves behind the
    first [n] characters of its data, those that reached the file before
    the failure; the other calls leave the files as they were. *)
Definition apply_failed (c : syscall) (n : nat) (fs : gmap string string)
    : gmap string string :=
  match c with
  | Write name data => alter (λ old, old +:+ str_take n data) name fs
  | MkdirAll _ _ | Create _ | Close _ => fs
  end.

(** Computations over the world. *)
Definition IO (A : Type) : Type := world → A * world.

Definition IO_ret {A} (a : A) : IO A := λ w, (a, w).

Definition IO_bind {A B} (m : IO A) (f : A → IO B) : IO B :=
  λ w, let '(a, w') := m w in f a w'.

Declare Scope io_scope.
Delimit Scope io_scope with io.
Notation "x <- m ;; k" := (IO_bind m (λ x, k))
  (at level 100, m at next level, right associativity) : io_scope.
Notation "m ;;; k" := (IO_bind m (λ _, k))
  (at level 100, right associativity) : io_scope.

(** [cli.renderer.Infof]. *)
Definition Infof (msg : string) : IO unit :=
  λ w, (tt, {| files := files w; trace := trace w; rendered := rendered w ++ [msg] |}).

(** ** The generator *)

(** A raw string literal of the source, given line by line: every line is
    followed by a line feed. *)
Definition raw_lines (lines : list string) : string :=
  concat_str (map (λ l, l +:+ nl) lines).

(** [fileContent] of [createMainFile]. *)
Definition mainFileContent : string :=
  raw_lines [
    "terraform {";
    "  required_version = " +:+ quoted "~> 1.5.0";
    "  required_providers {";
    "    auth0 = {";
    "      source  = " +:+ quoted "auth0/auth0";
    "      version = " +:+ quoted "1.0.0-beta.1";
    "    }";
    "  }";
    "}";
    "";
    "provider " +:+ quoted "auth0" +:+ " {";
    "  debug = true";
    "}"
  ].

(** [fileContent] of [createImportFile]: the template. *)
Definition importFileContent : string :=
  raw_lines [
    "# This file is automatically generated via the Auth0 CLI.";
    "# It can be safely removed after the successful generation";
    "# of Terraform resource definition files.";
    "{{range .}}";
    "import {";
    "  id = " +:+ quoted "{{ .ImportID }}";
    "  to = {{ .ResourceName }}";
    "}";
    "{{end}}"
  ].

Definition readWritePermission : Z := octal [0; 7; 5; 5].

Local Open Scope io_scope.

Section Generate.

(** The environment: whether a call fails, and with which error, given
    the world it is made in; and, for a write that fails, how many
    characters of its data reached the file all the same. Every theorem
    below holds for every environment. *)
Context (faults : syscall → world → option error).
Context (fitted : syscall → world → nat).

(** A call into [os]: the environment decides the outcome, the call is
    logged with it, and a call that succeeded acts on the files. A write
    that failed leaves a beginning of its data in the file, as long as the
    environment says; any other call that failed leaves the files as they
    were. *)
Definition os_call (c : syscall) : IO (option error) :=
  λ w,
    let r := faults c w in
    (r, {| files := match r with
                    | None => apply_call c (files w)
                    | Some _ => apply_failed c (fitted c w) (files w)
                    end;
           trace := trace w ++ [(c, r)];
           rendered := rendered w |}).

(** The writes of a template execution, in order, up to the first one
    that fails. *)
Fixpoint write_all (name : string) (chunks : list string) : IO (option error) :=
  match chunks with
  | [] => IO_ret None
  | chunk :: rest =>
      err <- os_call (Write name chunk);;
      match err with
      | Some e => IO_ret (Some e)
      | None => write_all name rest
      end
  end.

(** [t.Execute(file, data)]: a failed write ends the execution with the
    error of the write; an error of the execution itself comes after the
    writes that preceded it. *)
Definition Execute_to (name : string) (t : list Template.node)
    (data : importDataList) : IO (option error) :=
  let '(chunks, execErr) := Template.Execute t data in
  err <- write_all name chunks;;
  match err with
  | Some e => IO_ret (Some e)
  | None => IO_ret execErr
  end.

Definition createMainFile (outputDIR : string) : IO (option error) :=
  let filePath := path.Join [outputDIR; "main.tf"] in
  err <- os_call (Create filePath);;
  match err with
  | Some e => IO_ret (Some e)
  | None =>
      err <- os_call (Write filePath mainFileContent);;
      (* defer file.Close() *)
      os_call (Close filePath);;;
      IO_ret err
  end.

(** [createImportFile], with the template text [fileContent] as an
    argument. *)
Definition createImportFile_from (fileContent : string) (outputDIR : string)
    (data : importDataList) : IO (option error) :=
  let filePath := path.Join [outputDIR; "auth0_import.tf"] in
  err <- os_call (Create filePath);;
  match err with
  | Some e => IO_ret (Some e)
  | None =>
      err <- match Template.Parse fileContent with
             | inl e => IO_ret (Some e)
             | inr t => Execute_to filePath t data
             end;;
      (* defer file.Close() *)
      os_call (Close filePath);;;
      IO_ret err
  end.

Definition createImportFile (outputDIR : string) (data : importDataList)
    : IO (option error) :=
  createImportFile_from importFileContent outputDIR data.

Definition generateTerraformConfigFiles (outputDIR : string)
    (data : importDataList) : IO (option error) :=
  if decide (length data = 0%nat) then
    IO_ret (Some (errors_New "no import data available"))
  else
    let files_step : IO (option error) :=
      err <- createMainFile outputDIR;;
      match err with
      | Some e => IO_ret (Some e)
      | None => createImportFile outputDIR data
      end in
    err <- os_call (MkdirAll outputDIR readWritePermission);;
    match err with
    | Some e => if negb (os_IsExist e) then IO_ret (Some e) else files_step
    | None => files_step
    end.

(** ** The command *)

Section Command.

Context {context API : Type}.

(** The fetcher of client applications, declared outside the file at
    hand. *)
Context (clientResourceFetcher : API → resourceDataFetcher context).

Record terraformInputs := { OutputDIR : string }.

(** The part of [*cli] the command uses; the renderer writes to the
    world. *)
Record cli := { api : API }.

(** The part of [*cobra.Command] the command uses. *)
Record Command := { Context_ : context }.

Definition parseResourceFetchers (i : terraformInputs) (a : API)
    : list (resourceDataFetcher context) :=
  [clientResourceFetcher a].

Definition successMessage : string :=
  "Terraform config files generated successfully.".

Definition quickstartMessage : string :=
  "Follow this " +:+
  "[quickstart](https://registry.terraform.io/providers/auth0/auth0/latest/docs/guides/quickstart) " +:+
  "to go through setting up an Auth0 application for the provider to authenticate against and manage " +:+
  "resources.".

Definition generateTerraformCmdRun (c : cli) (inputs : terraformInputs)
    (cmd : Command) (args : list string) : IO (option error) :=
  let '(data, err) :=
    fetchImportData (Context_ cmd) (parseResourceFetchers inputs (api c)) in
  match err with
  | Some e => IO_ret (Some e)
  | None =>
      err <- generateTerraformConfigFiles (OutputDIR inputs) data;;
      match err with
      | Some e => IO_ret (Some e)
      | None =>
          Infof successMessage;;;
          Infof quickstartMessage;;;
          IO_ret None
      end
  end.

End Command.

End Generate.

Local Close Scope io_scope.

(** * The notions the properties are stated with *)

Section FetchNotions.

Context {context : Type}.
Implicit Types (ctx : context) (fetchers : list (resourceDataFetcher context)).

(** The records of the fetchers of a list, each fetcher's records in the
    order it returned them, the fetchers in the order of the list. *)
Definition records_of ctx fetchers : importDataList :=
  concat (map (λ f, (FetchData f ctx).1) fetchers).

Definition succeeds ctx (f : resourceDataFetcher context) : Prop :=
  (FetchData f ctx).2 = None.

End FetchNotions.

(** The import file as the specification describes it: the header comment
    of three lines, then one block per record. *)
Definition headerComment : string :=
  raw_lines [
    "# This file is automatically generated via the Auth0 CLI.";
    "# It can be safely removed after the successful generation";
    "# of Terraform resource definition files."
  ].

(** The import block of a record: the identifier between double quotes, the
    resource name as it is. *)
Definition importBlock (r : importDataItem) : string :=
  "import {" +:+ nl +:+
  "  id = " +:+ quoted (ImportID r) +:+ nl +:+
  "  to = " +:+ ResourceName r +:+ nl +:+
  "}".

(** A file of blocks: after the header, every block stands on lines of its
    own with an empty line before it; the file ends with an empty line. *)
Definition importFileText (blocks : list string) : string :=
  headerComment +:+ concat_str (map (λ b, nl +:+ b +:+ nl) blocks) +:+ nl.

(** The parse tree of the template of [createImportFile]. *)
Definition importTemplate : list Template.node :=
  [ Template.TextNode headerComment;
    Template.RangeNode
      [ Template.TextNode (nl +:+ "import {" +:+ nl +:+ "  id = " +:+ dq);
        Template.FieldNode "ImportID";
        Template.TextNode (dq +:+ nl +:+ "  to = ");
        Template.FieldNode "ResourceName";
        Template.TextNode (nl +:+ "}" +:+ nl) ];
    Template.TextNode nl ].

(** The writes the template makes for one record. *)
Definition item_writes (r : importDataItem) : list string :=
  [ nl +:+ "import {" +:+ nl +:+ "  id = " +:+ dq;
    ImportID r;
    dq +:+ nl +:+ "  to = ";
    ResourceName r;
    nl +:+ "}" +:+ nl ].

(** The writes the template makes for a list of records. *)
Definition import_writes (data : importDataList) : list string :=
  headerComment :: flat_map item_writes data ++ [nl].

(** The paths of the two files. *)
Definition mainPath (outputDIR : string) : string := path.Join [outputDIR; "main.tf"].
Definition importPath (outputDIR : string) : string := path.Join [outputDIR; "auth0_import.tf"].

(** What [path.Join] puts before the name of a file of the directory [dir]:
    the cleaned directory and a slash, or nothing for the current
    directory. *)
Definition dir_prefix (dir : string) : string :=
  if decide (dir = "") then ""
  else
    let out := fold_left (path.clean_step (path.rooted dir)) (path.split dir) [] in
    (if path.rooted dir then "/" else "") +:+
    match out with
    | [] => ""
    | _ :: _ => path.join_slash (rev out) +:+ "/"
    end.

(** A file name: one path element that [path.Clean] keeps. *)
Definition file_name (name : string) : Prop :=
  path.split name = [name] ∧ name ≠ "" ∧ name ≠ "." ∧ name ≠ "..".

(** Logs of calls. *)
Definition events : Type := list (syscall * option error).

(** The files created (or truncated) by the calls of a log, in order. *)
Fixpoint created (t : events) : list string :=
  match t with
  | [] => []
  | (Create name, None) :: t' => name :: created t'
  | _ :: t' => created t'
  end.

(** The calls that create or write a file. *)
Definition file_call (c : syscall) : bool :=
  match c with
  | Create _ | Write _ _ => true
  | MkdirAll _ _ | Close _ => false
  end.

Definition mkdir_call (c : syscall) : bool :=
  match c with
  | MkdirAll _ _ => true
  | _ => false
  end.

(** The lines of a text, and those that are not empty. *)
Fixpoint lines_go (cur : string) (s : string) : list string :=
  match s with
  | EmptyString => [cur]
  | String c s' =>
      if decide (c = "010"%char) then cur :: lines_go "" s'
      else lines_go (cur +:+ String c EmptyString) s'
  end.

Definition lines (s : string) : list string := lines_go "" s.

Definition nonblank_lines (s : string) : list string :=
  filter (λ l, l ≠ "") (lines s).

(** The three bits (read, write, execute) of a permission, for the owner,
    the group and the others. *)
Definition perm_owner (perm : Z) : Z := Z.land (Z.shiftr perm 6) 7.
Definition perm_group (perm : Z) : Z := Z.land (Z.shiftr perm 3) 7.
Definition perm_others (perm : Z) : Z := Z.land perm 7.

(** ** Values for the examples *)

Definition world0 : world := {| files := ∅; trace := []; rendered := [] |}.

(** The environment in which a write that fails leaves nothing behind, and
    the one in which it leaves up to five characters. *)
Definition fit0 : syscall → world → nat := λ _ _, 0%nat.
Definition fit5 : syscall → world → nat := λ _ _, 5%nat.

(** The environment in which no call fails. *)
Definition no_faults : syscall → world → option error := λ _ _, None.

Definition fetch_ok (l : importDataList) : resourceDataFetcher unit :=
  {| FetchData := λ _, (l, None) |}.

Definition fetch_fail (l : importDataList) (e : error) : resourceDataFetcher unit :=
  {| FetchData := λ _, (l, Some e) |}.

Definition item_app : importDataItem :=
  {| ImportID := "auth0|123"; ResourceName := "auth0_client.my_app" |}.

Definition item_api : importDataItem :=
  {| ImportID := "xyz"; ResourceName := "auth0_client.my_api" |}.

(** The log of writes that all succeeded. *)
Definition ok_writes (name : string) (chunks : list string) : events :=
  map (λ c, (Write name c, None)) chunks.

(** The end of the log of a sequence of writes: nothing when the result is
    nil, the failed write of [chunk] otherwise. *)
Definition failed_write (name : string) (chunk : option string)
    (r : option error) : events :=
  match r, chunk with
  | Some e, Some c => [(Write name c, Some e)]
  | _, _ => []
  end.

(** What a sequence of writes leaves of the chunk at which it stopped:
    nothing when the result is nil, the first [k] characters of [chunk]
    when its write failed. *)
Definition left_behind (chunk : option string) (r : option error)
    (k : nat) : string :=
  match r, chunk with
  | Some _, Some c => str_take k c
  | _, _ => ""
  end.

(** ** The runs of the generator *)

(** The calls of [createMainFile] once the file is created: [r] is the
    outcome of the write, [o] that of the close. *)
Definition main_events (dir : string) (r o : option error) : events :=
  [ (Create (mainPath dir), None);
    (Write (mainPath dir) mainFileContent, r);
    (Close (mainPath dir), o) ].

(** The calls of [createImportFile] once the file is created: [n] writes
    that succeeded, the write that failed when the result [r] is an error,
    and the close. *)
Definition import_events (dir : string) (data : importDataList) (n : nat)
    (r o : option error) : events :=
  (Create (importPath dir), None)
  :: ok_writes (importPath dir) (take n (import_writes data))
  ++ failed_write (importPath dir) (import_writes data !! n) r
  ++ [(Close (importPath dir), o)].

(** The runs of the two file steps from the files [fs]: the calls made, the
    result and the files left. A write that fails leaves the first [k]
    characters of its data behind. *)
Inductive files_run (dir : string) (data : importDataList)
    (fs : gmap string string) : events → option error → gmap string string → Prop :=
| main_create_fails e :
    files_run dir data fs
      [(Create (mainPath dir), Some e)]
      (Some e) fs
| main_write_fails e o k :
    files_run dir data fs
      (main_events dir (Some e) o)
      (Some e) (<[mainPath dir := str_take k mainFileContent]> fs)
| import_create_fails o e :
    files_run dir data fs
      (main_events dir None o ++ [(Create (importPath dir), Some e)])
      (Some e) (<[mainPath dir := mainFileContent]> fs)
| import_write_fails o n e o' k x :
    import_writes data !! n = Some x →
    files_run dir data fs
      (main_events dir None o ++ import_events dir data n (Some e) o')
      (Some e)
      (<[importPath dir := concat_str (take n (import_writes data))
                           +:+ str_take k x]>
         (<[mainPath dir := mainFileContent]> fs))
| both_written o o' :
    files_run dir data fs
      (main_events dir None o
       ++ import_events dir data (length (import_writes data)) None o')
      None
      (<[importPath dir := concat_str (import_writes data)]>
         (<[mainPath dir := mainFileContent]> fs)).

(** The runs of [generateTerraformConfigFiles] on a list that is not
    empty: the directory step, then the file steps unless the directory
    step failed with an error other than "exists". *)
Inductive generate_run (dir : string) (data : importDataList)
    (fs : gmap string string) : events → option error → gmap string string → Prop :=
| mkdir_fails e :
    os_IsExist e = false →
    generate_run dir data fs
      [(MkdirAll dir readWritePermission, Some e)]
      (Some e) fs
| mkdir_done o t r fs' :
    (∀ e, o = Some e → os_IsExist e = true) →
    files_run dir data fs t r fs' →
    generate_run dir data fs
      ((MkdirAll dir readWritePermission, o) :: t)
      r fs'.

(** Environments for the examples: the directory exists already; the
    import file cannot be created. *)
Definition faults_dir_exists : syscall → world → option error :=
  λ c _,
    match c with
    | MkdirAll p _ => Some (PathError "mkdir" p EEXIST)
    | _ => None
    end.

Definition faults_import_denied : syscall → world → option error :=
  λ c _,
    match c with
    | Create name =>
        if decide (name = "out/auth0_import.tf")
        then Some (PathError "open" name EACCES) else None
    | _ => None
    end.

Definition faults_dir_denied : syscall → world → option error :=
  λ c _,
    match c with
    | MkdirAll p _ => Some (PathError "mkdir" p EACCES)
    | _ => None
    end.

(** The two file steps of [generateTerraformConfigFiles], in sequence. *)
Definition write_files (faults : syscall → world → option error)
    (fitted : syscall → world → nat)
    (dir : string) (data : importDataList) : IO (option error) :=
  IO_bind (createMainFile faults fitted dir)
    (λ err, match err with
            | Some e => IO_ret (Some e)
            | None => createImportFile faults fitted dir data
            end).

(** The world after the directory step with outcome [o]. *)
Definition after_mkdir (dir : string) (o : option error) (w : world) : world :=
  {| files := files w;
     trace := trace w ++ [(MkdirAll dir readWritePermission, o)];
     rendered := rendered w |}.

(** The import file of the single record [item_app], written out. *)
Definition block_app : string :=
  "import {" +:+ nl +:+
  "  id = " +:+ quoted "auth0|123" +:+ nl +:+
  "  to = auth0_client.my_app" +:+ nl +:+
  "}".

Definition file_app : string :=
  headerComment +:+ nl +:+ block_app +:+ nl +:+ nl.

(** The text of [main.tf], written out: the [terraform] block with the
    required version of Terraform and the source and version of the Auth0
    provider, an empty line, and the [provider] block with [debug] on. *)
Definition main_tf_text : string :=
  "terraform {" +:+ nl +:+
  "  required_version = " +:+ quoted "~> 1.5.0" +:+ nl +:+
  "  required_providers {" +:+ nl +:+
  "    auth0 = {" +:+ nl +:+
  "      source  = " +:+ quoted "auth0/auth0" +:+ nl +:+
  "      version = " +:+ quoted "1.0.0-beta.1" +:+ nl +:+
  "    }" +:+ nl +:+
  "  }" +:+ nl +:+
  "}" +:+ nl +:+
  nl +:+
  "provider " +:+ quoted "auth0" +:+ " {" +:+ nl +:+
  "  debug = true" +:+ nl +:+
  "}" +:+ nl.

(** The generator stops when the directory step failed with an error other
    than "exists"; otherwise the file steps follow. *)
Definition stops_at_mkdir (o : option error) : bool :=
  match o with
  | Some e => negb (os_IsExist e)
  | None => false
  end.


(** ** Further notions *)

(** The files closed by the calls of a log, in order, whatever the outcome
    of the close. *)
Fixpoint closed (t : events) : list string :=
  match t with
  | [] => []
  | (Close name, _) :: t' => name :: closed t'
  | _ :: t' => closed t'
  end.

(** [s] is the beginning of [full]. *)
Definition str_prefix (s full : string) : Prop := ∃ rest, full = s +:+ rest.

(** No line feed in [s]. *)
Fixpoint no_nl (s : string) : bool :=
  match s with
  | EmptyString => true
  | String c s' => if decide (c = "010"%char) then false else no_nl s'
  end.

(** The lines of the header comment, and the lines a record takes in the
    import file: an empty line, then the four lines of its block. *)
Definition header_lines : list string :=
  [ "# This file is automatically generated via the Auth0 CLI.";
    "# It can be safely removed after the successful generation";
    "# of Terraform resource definition files." ].

Definition record_lines (r : importDataItem) : list string :=
  [ "";
    "import {";
    "  id = " +:+ quoted (ImportID r);
    "  to = " +:+ ResourceName r;
    "}" ].

(** Environments for the examples: every close fails; the write of the
    identifier [auth0|123] fails. *)
Definition faults_close_fails : syscall → world → option error :=
  λ c _,
    match c with
    | Close name => Some (PathError "close" name EIO)
    | _ => None
    end.

Definition faults_disk_full : syscall → world → option error :=
  λ c _,
    match c with
    | Write name data =>
        if decide (data = "auth0|123")
        then Some (PathError "write" name ENOSPC) else None
    | _ => None
    end.

(** Two records, and one record whose resource name spells the end of a
    block and a second block. *)
Definition item_one : importDataItem :=
  {| ImportID := "1"; ResourceName := "auth0_client.x" |}.

Definition item_two : importDataItem :=
  {| ImportID := "2"; ResourceName := "auth0_client.y" |}.

Definition item_forged : importDataItem :=
  {| ImportID := "1";
     ResourceName :=
       "auth0_client.x" +:+ nl +:+ "}" +:+ nl +:+ nl +:+
       "import {" +:+ nl +:+
       "  id = " +:+ quoted "2" +:+ nl +:+
       "  to = auth0_client.y" |}.

(** A world with a file of the user's. *)
Definition world1 : world :=
  {| files := {["notes.txt" := "keep"]}; trace := []; rendered := [] |}.

(** * Properties *)

(** ** Aggregation *)

Section FetchFacts.

Context {context : Type}.
Implicit Types (ctx : context) (fetchers : list (resourceDataFetcher context)).

Lemma fetchImportData_loop_app ctx acc pre rest :
  Forall (succeeds ctx) pre →
  fetchImportData_loop ctx acc (pre ++ rest)
  = fetchImportData_loop ctx (acc ++ records_of ctx pre) rest.
Proof.
  intros Hpre. revert acc.
  induction Hpre as [|f pre Hf _ IH]; intros acc; simpl.
  - unfold records_of; simpl. by rewrite app_nil_r.
  - unfold succeeds in Hf. destruct (FetchData f ctx) as [data err] eqn:E.
    simpl in Hf; subst err. rewrite IH.
    unfold records_of; simpl. rewrite E; simpl. by rewrite app_assoc.
Qed.

(** C4: when every fetcher succeeds, the result is the concatenation of
    the fetchers' records, in the order of the fetchers and, within one
    fetcher, in the order returned; no error is reported, whatever the
    number of records of each fetcher, zero included. *)
Theorem fetchImportData_all_succeed ctx fetchers :
  Forall (succeeds ctx) fetchers →
  fetchImportData ctx fetchers = (records_of ctx fetchers, None).
Proof.
  intros H. unfold fetchImportData.
  rewrite <- (app_nil_r fetchers) at 1.
  by rewrite fetchImportData_loop_app.
Qed.

(** C3: when the fetchers before [f] succeed and [f] returns the error
    [e], the result is that error with a nil list: the records of the
    fetchers before [f], and those [f] may have returned with its error,
    are dropped. *)
Theorem fetchImportData_first_error ctx pre f post d e :
  Forall (succeeds ctx) pre →
  FetchData f ctx = (d, Some e) →
  fetchImportData ctx (pre ++ f :: post) = ([], Some e).
Proof.
  intros Hpre Hf. unfold fetchImportData.
  rewrite fetchImportData_loop_app by done.
  simpl. by rewrite Hf.
Qed.

End FetchFacts.

Lemma fetchImportData_all_succeed_witness :
  fetchImportData tt [fetch_ok [item_app]; fetch_ok []; fetch_ok [item_api; item_app]]
  = ([item_app; item_api; item_app], None).
Proof.
  apply (fetchImportData_all_succeed tt
           [fetch_ok [item_app]; fetch_ok []; fetch_ok [item_api; item_app]]).
  repeat constructor.
Defined.

Lemma fetchImportData_first_error_witness :
  fetchImportData tt
    [fetch_ok [item_app]; fetch_fail [item_api] (APIError "401"); fetch_ok [item_api]]
  = ([], Some (APIError "401")).
Proof.
  apply (fetchImportData_first_error tt [fetch_ok [item_app]]
           (fetch_fail [item_api] (APIError "401")) [fetch_ok [item_api]]
           [item_api] (APIError "401")).
  - repeat constructor.
  - reflexivity.
Defined.

(** ** Strings *)

Lemma str_app_cons (x : ascii) (a b : string) :
  String x a +:+ b = String x (a +:+ b).
Proof. reflexivity. Qed.

Lemma str_app_nil_l (a : string) : "" +:+ a = a.
Proof. reflexivity. Qed.

Lemma str_app_assoc (a b c : string) : (a +:+ b) +:+ c = a +:+ (b +:+ c).
Proof.
  induction a as [|x a IH]; [done|].
  by rewrite !str_app_cons, IH.
Qed.

Lemma str_app_nil_r (a : string) : a +:+ "" = a.
Proof.
  induction a as [|x a IH]; [done|].
  by rewrite str_app_cons, IH.
Qed.

Lemma concat_str_app (l1 l2 : list string) :
  concat_str (l1 ++ l2) = concat_str l1 +:+ concat_str l2.
Proof.
  induction l1 as [|s l1 IH]; simpl; [done|].
  by rewrite IH, str_app_assoc.
Qed.

(** ** The template *)

(** The template of the source parses, to [importTemplate]. *)
Lemma Parse_importFileContent :
  Template.Parse importFileContent = inr importTemplate.
Proof. vm_compute. reflexivity. Qed.

Lemma exec_range_body (r : importDataItem) :
  Template.exec_list (Template.VItem r)
    [ Template.TextNode (nl +:+ "import {" +:+ nl +:+ "  id = " +:+ dq);
      Template.FieldNode "ImportID";
      Template.TextNode (dq +:+ nl +:+ "  to = ");
      Template.FieldNode "ResourceName";
      Template.TextNode (nl +:+ "}" +:+ nl) ]
  = (item_writes r, None).
Proof. reflexivity. Qed.

Lemma andThen_ok (l1 l2 : list string) (e : option error) :
  Template.andThen (l1, None) (l2, e) = (l1 ++ l2, e).
Proof. reflexivity. Qed.

(** Executing the template writes the header, then the five pieces of every
    record in the order of the list, then a line feed; the execution itself
    never fails. *)
Lemma Execute_importTemplate (data : importDataList) :
  Template.Execute importTemplate data = (import_writes data, None).
Proof.
  unfold Template.Execute, importTemplate, import_writes.
  cbn [Template.exec_list].
  change (Template.exec_node (Template.VList data) (Template.TextNode ?t))
    with ([t], @None error).
  match goal with
  | |- Template.andThen _ (Template.andThen ?r _) = _ =>
      assert (Hr : r = (flat_map item_writes data, None))
  end.
  { induction data as [|r data IH].
    - reflexivity.
    - cbn [flat_map]. rewrite <- andThen_ok, <- IH, <- exec_range_body.
      reflexivity. }
  rewrite Hr. reflexivity.
Qed.

Lemma concat_item_writes (r : importDataItem) :
  concat_str (item_writes r) = nl +:+ importBlock r +:+ nl.
Proof.
  unfold item_writes, importBlock, quoted. cbn [concat_str].
  rewrite str_app_nil_r, !str_app_assoc. reflexivity.
Qed.

(** The content written for a list of records is the file of their
    blocks. *)
Lemma concat_import_writes (data : importDataList) :
  concat_str (import_writes data) = importFileText (map importBlock data).
Proof.
  unfold import_writes, importFileText. cbn [concat_str]. f_equal.
  rewrite concat_str_app. cbn [concat_str]. rewrite str_app_nil_r. f_equal.
  induction data as [|r data IH]; [done|].
  cbn [flat_map map]. rewrite concat_str_app, concat_item_writes, IH.
  cbn [concat_str]. by rewrite !str_app_assoc.
Qed.

(** ** Paths *)

Lemma str_app_eq_nil (a b : string) : a +:+ b = "" → b = "".
Proof. destruct a; [done | discriminate]. Qed.

Lemma split_go_slash (cur s t : string) :
  path.split_go cur (s +:+ "/" +:+ t) = path.split_go cur s ++ path.split_go "" t.
Proof.
  revert cur. induction s as [|c s IH]; intros cur.
  - reflexivity.
  - rewrite str_app_cons. cbn [path.split_go].
    destruct (decide (c = "/"%char)); by rewrite IH.
Qed.

Lemma join_slash_snoc (l : list string) (name : string) :
  l ≠ [] → path.join_slash (l ++ [name]) = path.join_slash l +:+ "/" +:+ name.
Proof.
  induction l as [|e l IH]; [done|]. intros _.
  destruct l as [|e' l]; [reflexivity|].
  change (e +:+ "/" +:+ path.join_slash ((e' :: l) ++ [name])
          = (e +:+ "/" +:+ path.join_slash (e' :: l)) +:+ "/" +:+ name).
  rewrite IH by done. by rewrite !str_app_assoc.
Qed.

Lemma rooted_app (dir rest : string) :
  dir ≠ "" → path.rooted (dir +:+ rest) = path.rooted dir.
Proof. destruct dir; [done | reflexivity]. Qed.

Lemma file_name_not_rooted (name : string) :
  file_name name → path.rooted name = false.
Proof.
  intros (Hsplit & Hne & _). destruct name as [|c name]; [done|].
  unfold path.rooted.
  destruct (decide (c = "/"%char)) as [->|Hc].
  - unfold path.split in Hsplit. cbn [path.split_go] in Hsplit.
    rewrite decide_True in Hsplit by done. discriminate.
  - destruct c as [[] [] [] [] [] [] [] []]; try reflexivity. by destruct Hc.
Qed.

Lemma clean_step_file_name (isRooted : bool) (out : list string) (name : string) :
  file_name name → path.clean_step isRooted out name = name :: out.
Proof.
  intros (_ & H1 & H2 & H3). unfold path.clean_step.
  rewrite decide_False by (intros [?|?]; done).
  by rewrite decide_False.
Qed.

(** [path.Join] of a directory and a file name is the prefix of the
    directory followed by the name. *)
Lemma Join_file_name (dir name : string) :
  file_name name → path.Join [dir; name] = dir_prefix dir +:+ name.
Proof.
  intros Hname. pose proof Hname as (Hsplit & Hne & _).
  unfold dir_prefix. cbn [path.Join].
  destruct (decide (dir = "")) as [->|Hdir].
  - rewrite decide_False by done. cbn [path.join_slash].
    unfold path.Clean. rewrite decide_False by done.
    rewrite Hsplit, file_name_not_rooted by done. cbn [fold_left].
    rewrite clean_step_file_name by done. cbn [rev app path.join_slash].
    by rewrite decide_False.
  - cbn [path.join_slash]. unfold path.Clean.
    rewrite decide_False by (intros H; apply str_app_eq_nil in H; discriminate).
    rewrite rooted_app by done.
    unfold path.split. rewrite split_go_slash.
    fold (path.split dir) (path.split name). rewrite Hsplit.
    rewrite fold_left_app. cbn [fold_left].
    rewrite clean_step_file_name by done.
    set (out := fold_left _ (path.split dir) []).
    cbn [rev]. change (rev out) with (rev out).
    assert (Hbody : path.join_slash (rev out ++ [name])
                    = match out with
                      | [] => ""
                      | _ :: _ => path.join_slash (rev out) +:+ "/"
                      end +:+ name).
    { destruct out as [|o out']; [reflexivity|].
      rewrite join_slash_snoc, str_app_assoc; [done|].
      cbn [rev]. by destruct (rev out'). }
    rewrite Hbody.
    destruct (path.rooted dir).
    + by rewrite str_app_assoc.
    + rewrite decide_False; [done|].
      intros H; by apply str_app_eq_nil in H.
Qed.

Lemma file_name_main : file_name "main.tf".
Proof. by vm_compute. Qed.

Lemma file_name_import : file_name "auth0_import.tf".
Proof. by vm_compute. Qed.

Lemma mainPath_prefix (dir : string) : mainPath dir = dir_prefix dir +:+ "main.tf".
Proof. apply Join_file_name, file_name_main. Qed.

Lemma importPath_prefix (dir : string) :
  importPath dir = dir_prefix dir +:+ "auth0_import.tf".
Proof. apply Join_file_name, file_name_import. Qed.

(** The two files of a directory are different files. *)
Lemma mainPath_ne_importPath (dir : string) : mainPath dir ≠ importPath dir.
Proof.
  rewrite mainPath_prefix, importPath_prefix. intros H.
  apply (inj (String.app (dir_prefix dir))) in H. discriminate.
Qed.

(** ** Calls and writes *)

Section IOFacts.

Context (faults : syscall → world → option error).
Context (fitted : syscall → world → nat).

Lemma alter_append_nil (name : string) (fs : gmap string string) :
  alter (λ old, old +:+ "") name fs = fs.
Proof. apply alter_id. intros x _. apply str_app_nil_r. Qed.

Lemma alter_append_append (name a b : string) (fs : gmap string string) :
  alter (λ old, old +:+ b) name (alter (λ old, old +:+ a) name fs)
  = alter (λ old, old +:+ (a +:+ b)) name fs.
Proof.
  rewrite alter_alter_eq. apply alter_ext. intros x _. simpl.
  apply str_app_assoc.
Qed.

(** A sequence of writes: the first [n] chunks are written, and either
    all of them were ([n] is their number and the result is nil) or the
    write of chunk [n] failed with the error returned, leaving the first
    [k] characters of that chunk in the file. *)
Lemma write_all_spec (name : string) (chunks : list string) (w : world) :
  ∃ n k : nat,
    let r := (write_all faults fitted name chunks w).1 in
    let w' := (write_all faults fitted name chunks w).2 in
    rendered w' = rendered w ∧
    files w' = alter (λ old, old +:+ concat_str (take n chunks)
                                 +:+ left_behind (chunks !! n) r k)
                 name (files w) ∧
    trace w' = trace w ++ ok_writes name (take n chunks)
                       ++ failed_write name (chunks !! n) r ∧
    match r with
    | None => n = length chunks
    | Some _ => is_Some (chunks !! n)
    end.
Proof.
  revert w. induction chunks as [|c chunks IH]; intros w.
  - exists 0%nat, 0%nat. cbn. rewrite alter_append_nil, app_nil_r. done.
  - cbn [write_all]. unfold IO_bind, os_call.
    destruct (faults (Write name c) w) as [e|] eqn:E.
    + exists 0%nat, (fitted (Write name c) w). cbn. eauto.
    + match goal with
      | |- context [write_all faults fitted name chunks ?w1] =>
          destruct (IH w1) as (n & k & Hr & Hf & Ht & Hn)
      end.
      exists (S n), k. cbn zeta in *.
      cbn [take lookup list_lookup concat_str].
      cbn [rendered files trace apply_call] in *.
      split; [exact Hr|]. split; [|split].
      * rewrite Hf, str_app_assoc. apply alter_append_append.
      * rewrite Ht. cbn [ok_writes map]. by rewrite <- !app_assoc.
      * destruct (write_all faults fitted name chunks _).1; [done|].
        cbn [length]. by f_equal.
Qed.

(** [createMainFile]: either the creation fails, and nothing else is
    done, or the file is created, the content written in one write whose
    outcome is the result, and the file closed; a write that fails leaves
    the first [k] characters of the content. *)
Lemma createMainFile_spec (dir : string) (w : world) :
  let p := mainPath dir in
  let r := (createMainFile faults fitted dir w).1 in
  let w' := (createMainFile faults fitted dir w).2 in
  rendered w' = rendered w ∧
  ((∃ e, r = Some e ∧ trace w' = trace w ++ [(Create p, Some e)]
         ∧ files w' = files w)
   ∨ (∃ o k, trace w' = trace w ++ [(Create p, None);
                                    (Write p mainFileContent, r);
                                    (Close p, o)]
             ∧ files w' = <[p := match r with
                                 | None => mainFileContent
                                 | Some _ => str_take k mainFileContent
                                 end]> (files w))).
Proof.
  unfold createMainFile, IO_bind, IO_ret, os_call. fold (mainPath dir).
  generalize (mainPath dir) as p. generalize mainFileContent as content.
  intros content p. cbn zeta.
  destruct (faults (Create p) w) as [e|] eqn:Ec; cbn.
  - split; [done|]. left. eauto.
  - split; [done|]. right.
    match goal with
    | |- context [faults (Close p) ?w2] => exists (faults (Close p) w2)
    end.
    match goal with
    | |- context [fitted (Write p content) ?w1] =>
        exists (fitted (Write p content) w1)
    end.
    rewrite <- !app_assoc. split; [done|].
    destruct (faults (Write p content) _);
      destruct (faults (Close p) _);
      by rewrite ?alter_insert_eq, ?str_app_nil_l.
Qed.

(** [createImportFile]: either the creation fails, and nothing else is
    done, or the file is created, the writes of the template made up to
    the first that fails, and the file closed; the result is nil when
    all the writes were made, the error of the failed write otherwise, and
    that write leaves the first [k] characters of its chunk. *)
Lemma createImportFile_spec (dir : string) (data : importDataList) (w : world) :
  let p := importPath dir in
  let chunks := import_writes data in
  let r := (createImportFile faults fitted dir data w).1 in
  let w' := (createImportFile faults fitted dir data w).2 in
  rendered w' = rendered w ∧
  ((∃ e, r = Some e ∧ trace w' = trace w ++ [(Create p, Some e)]
         ∧ files w' = files w)
   ∨ (∃ n k o, trace w' = trace w ++ (Create p, None)
                            :: ok_writes p (take n chunks)
                            ++ failed_write p (chunks !! n) r
                            ++ [(Close p, o)]
               ∧ files w' = <[p := concat_str (take n chunks)
                                   +:+ left_behind (chunks !! n) r k]> (files w)
               ∧ match r with
                 | None => n = length chunks
                 | Some _ => is_Some (chunks !! n)
                 end)).
Proof.
  unfold createImportFile, createImportFile_from. rewrite Parse_importFileContent.
  unfold Execute_to. rewrite Execute_importTemplate.
  unfold IO_bind, IO_ret, os_call. fold (importPath dir).
  generalize (importPath dir) as p. generalize (import_writes data) as chunks.
  intros chunks p. cbn zeta.
  destruct (faults (Create p) w) as [e|] eqn:Ec.
  - cbn. split; [done|]. left. eauto.
  - match goal with
    | |- context [write_all faults fitted p chunks ?w1] =>
        destruct (write_all_spec p chunks w1) as (n & k & Hr & Hf & Ht & Hn);
        destruct (write_all faults fitted p chunks w1) as [r w2]
    end.
    cbn [fst snd rendered files trace apply_call] in *.
    assert (Hres : ∀ w3 : world,
               match r with
               | Some e => λ w0 : world, (Some e, w0)
               | None => λ w0 : world, (@None error, w0)
               end w3 = (r, w3)) by (by destruct r).
    rewrite Hres. cbn [fst snd rendered files trace apply_call].
    split; [done|]. right.
    exists n, k. eexists. split; [|split; [|exact Hn]].
    + rewrite Ht. rewrite <- !app_assoc. reflexivity.
    + rewrite Hf, alter_insert_eq.
      destruct (faults (Close p) _); by rewrite ?str_app_nil_l.
Qed.

(** The two file steps run as [files_run] says. *)
Lemma write_files_runs (dir : string) (data : importDataList) (w : world) :
  let r := (write_files faults fitted dir data w).1 in
  let w' := (write_files faults fitted dir data w).2 in
  ∃ t, trace w' = trace w ++ t
       ∧ rendered w' = rendered w
       ∧ files_run dir data (files w) t r (files w').
Proof.
  cbn zeta. unfold write_files, IO_bind.
  destruct (createMainFile_spec dir w) as (Hrm & Hm). cbn zeta in Hm.
  destruct (createMainFile faults fitted dir w) as [rm wm].
  cbn [fst snd] in Hrm, Hm.
  destruct Hm as [(e & -> & Ht & Hf)|(o & k & Ht & Hf)].
  - exists [(Create (mainPath dir), Some e)]. cbn.
    rewrite Hf. repeat split; [done..|]. constructor.
  - destruct rm as [e|].
    + eexists. cbn. rewrite Hf. repeat split; [exact Ht|done|].
      apply main_write_fails.
    + destruct (createImportFile_spec dir data wm) as (Hri & Hi).
      cbn zeta in Hi.
      destruct (createImportFile faults fitted dir data wm) as [ri wi].
      cbn [fst snd] in Hri, Hi |- *.
      destruct Hi as [(e & -> & Hti & Hfi)|(n & k' & o' & Hti & Hfi & Hn)].
      * eexists. rewrite Hti, Ht, Hfi, Hf, <- app_assoc.
        repeat split; [congruence|]. apply import_create_fails.
      * exists (main_events dir None o ++ import_events dir data n ri o').
        rewrite Hti, Ht, Hfi, Hf, <- app_assoc.
        repeat split; [congruence|].
        destruct ri as [e|].
        -- destruct Hn as [x Hx]. rewrite Hx. cbn [left_behind].
           by apply import_write_fails.
        -- subst n. rewrite take_ge by done. cbn [left_behind].
           rewrite str_app_nil_r. apply both_written.
Qed.

(** [generateTerraformConfigFiles] on the empty list. *)
Lemma generate_empty (dir : string) (w : world) :
  generateTerraformConfigFiles faults fitted dir [] w
  = (Some (errors_New "no import data available"), w).
Proof. reflexivity. Qed.

(** [generateTerraformConfigFiles] on a list that is not empty: the
    directory step, then the file steps unless the directory step failed
    with an error other than "exists". *)
Lemma generate_nonempty (dir : string) (data : importDataList) (w : world) :
  data ≠ [] →
  generateTerraformConfigFiles faults fitted dir data w
  = let o := faults (MkdirAll dir readWritePermission) w in
    match o with
    | Some e =>
        if os_IsExist e then write_files faults fitted dir data (after_mkdir dir o w)
        else (Some e, after_mkdir dir o w)
    | None => write_files faults fitted dir data (after_mkdir dir o w)
    end.
Proof.
  intros Hdata. unfold generateTerraformConfigFiles.
  rewrite decide_False by (by destruct data).
  cbn zeta. fold (write_files faults fitted dir data).
  unfold IO_bind at 1. unfold os_call, after_mkdir, IO_ret.
  destruct (faults (MkdirAll dir readWritePermission) w) as [e|]; [|done].
  by destruct (os_IsExist e).
Qed.

Lemma generate_runs (dir : string) (data : importDataList) (w : world) :
  data ≠ [] →
  let mk := MkdirAll dir readWritePermission in
  let r := (generateTerraformConfigFiles faults fitted dir data w).1 in
  let w' := (generateTerraformConfigFiles faults fitted dir data w).2 in
  ∃ t, trace w' = trace w ++ (mk, faults mk w) :: t
       ∧ rendered w' = rendered w
       ∧ generate_run dir data (files w) ((mk, faults mk w) :: t) r (files w').
Proof.
  intros Hdata. cbn zeta. rewrite generate_nonempty by done. cbn zeta.
  set (o := faults (MkdirAll dir readWritePermission) w).
  destruct (write_files_runs dir data (after_mkdir dir o w))
    as (t & Ht & Hr & Hrun).
  cbn zeta in Ht, Hr, Hrun. cbn [after_mkdir files trace rendered] in Ht, Hr, Hrun.
  rewrite <- app_assoc in Ht.
  assert (Hgo : ∃ t0,
    trace (write_files faults fitted dir data (after_mkdir dir o w)).2
      = trace w ++ (MkdirAll dir readWritePermission, o) :: t0
    ∧ rendered (write_files faults fitted dir data (after_mkdir dir o w)).2 = rendered w
    ∧ ((∀ e, o = Some e → os_IsExist e = true) →
       generate_run dir data (files w)
         ((MkdirAll dir readWritePermission, o) :: t0)
         (write_files faults fitted dir data (after_mkdir dir o w)).1
         (files (write_files faults fitted dir data (after_mkdir dir o w)).2))).
  { exists t. repeat split; [done..|]. intros Ho. by apply mkdir_done. }
  destruct Hgo as (t0 & Ht0 & Hr0 & Hrun0).
  destruct o as [e|] eqn:Eo.
  - destruct (os_IsExist e) eqn:Ee.
    + exists t0. repeat split; [done..|]. apply Hrun0. congruence.
    + exists []. cbn. repeat split; [done..|]. by apply mkdir_fails.
  - exists t0. repeat split; [done..|]. apply Hrun0. congruence.
Qed.

End IOFacts.

(** ** Runs *)

Lemma elem_of_ok_writes (name : string) (chunks : list string)
    (c : syscall) (o : option error) :
  (c, o) ∈ ok_writes name chunks → o = None ∧ ∃ chunk, c = Write name chunk.
Proof.
  induction chunks as [|x chunks IH]; cbn [ok_writes map].
  - by intros ?%elem_of_nil.
  - intros [H|H]%elem_of_cons; [injection H as -> ->; eauto | by apply IH].
Qed.

Lemma elem_of_failed_write (name : string) (chunk : option string)
    (r : option error) (c : syscall) (o : option error) :
  (c, o) ∈ failed_write name chunk r → o = r ∧ ∃ x, c = Write name x.
Proof.
  destruct r as [e|], chunk as [x|]; cbn; try by intros ?%elem_of_nil.
  intros [H|H]%elem_of_cons; [injection H as -> ->; eauto | by apply elem_of_nil in H].
Qed.

Lemma created_app (t1 t2 : events) : created (t1 ++ t2) = created t1 ++ created t2.
Proof.
  induction t1 as [|[c o] t1 IH]; [done|].
  cbn [app created]. destruct c, o; cbn [app]; by rewrite ?IH.
Qed.

Lemma created_ok_writes (name : string) (chunks : list string) :
  created (ok_writes name chunks) = [].
Proof. induction chunks; [done | by cbn]. Qed.

Lemma created_failed_write (name : string) (chunk : option string) (r : option error) :
  created (failed_write name chunk r) = [].
Proof. by destruct r, chunk. Qed.

Lemma created_main_events (dir : string) (r o : option error) :
  created (main_events dir r o) = [mainPath dir].
Proof. by destruct r, o. Qed.

Lemma created_import_events (dir : string) (data : importDataList) (n : nat)
    (r o : option error) :
  created (import_events dir data n r o) = [importPath dir].
Proof.
  unfold import_events. cbn [created]. f_equal.
  rewrite !created_app, created_ok_writes, created_failed_write. by destruct o.
Qed.

(** Membership in a log given as appended and consed pieces: one goal per
    piece. *)
Ltac split_events H :=
  repeat first
    [ apply elem_of_app in H as [H|H]
    | apply elem_of_cons in H as [H|H]
    | apply elem_of_nil in H; destruct H ].

Section RunFacts.

Context (dir : string) (data : importDataList) (fs fs' : gmap string string)
        (t : events) (r : option error).

(** A call that creates or writes a file and fails gives its error as
    the result. *)
Lemma files_run_file_error c e :
  files_run dir data fs t r fs' →
  (c, Some e) ∈ t → file_call c = true → r = Some e.
Proof.
  intros Hrun Hin Hc.
  destruct Hrun; unfold main_events, import_events in Hin;
    split_events Hin;
    try (apply elem_of_ok_writes in Hin as [? _]; discriminate);
    try (apply elem_of_failed_write in Hin as [Hin _]; by rewrite Hin);
    try (injection Hin as -> ?; subst; done); try discriminate.
Qed.

(** Every run of the file steps starts by creating [main.tf]. *)
Lemma files_run_head :
  files_run dir data fs t r fs' →
  ∃ o t', t = (Create (mainPath dir), o) :: t'.
Proof. intros Hrun. destruct Hrun; cbn; eauto. Qed.

(** No run of the file steps makes a directory. *)
Lemma files_run_no_mkdir :
  files_run dir data fs t r fs' → Forall (λ ev, mkdir_call ev.1 = false) t.
Proof.
  intros Hrun. apply Forall_forall. intros [c o] Hin. cbn.
  destruct Hrun; unfold main_events, import_events in Hin;
    split_events Hin;
    try (apply elem_of_ok_writes in Hin as [_ [? ->]]; done);
    try (apply elem_of_failed_write in Hin as [_ [? ->]]; done);
    try (injection Hin as -> ?; done).
Qed.

(** A successful run creates the two files, [main.tf] first, and leaves
    them with their contents. *)
Lemma files_run_success :
  files_run dir data fs t r fs' → r = None →
  created t = [mainPath dir; importPath dir]
  ∧ fs' = <[importPath dir := concat_str (import_writes data)]>
            (<[mainPath dir := mainFileContent]> fs).
Proof.
  intros Hrun Hr. destruct Hrun; try discriminate.
  by rewrite created_app, created_main_events, created_import_events.
Qed.

(** Once [main.tf] is written, it stays as written, whatever happens to
    the import file. *)
Lemma files_run_main_kept :
  files_run dir data fs t r fs' →
  (Write (mainPath dir) mainFileContent, None) ∈ t →
  fs' !! mainPath dir = Some mainFileContent.
Proof.
  intros Hrun Hin.
  destruct Hrun.
  - split_events Hin. discriminate.
  - unfold main_events in Hin. split_events Hin; discriminate.
  - by rewrite lookup_insert_eq.
  - rewrite lookup_insert_ne by (apply not_eq_sym, mainPath_ne_importPath).
    by rewrite lookup_insert_eq.
  - rewrite lookup_insert_ne by (apply not_eq_sym, mainPath_ne_importPath).
    by rewrite lookup_insert_eq.
Qed.

End RunFacts.

(** ** The import file *)

Section ImportFile.

Context (faults : syscall → world → option error).
Context (fitted : syscall → world → nat).

(** When [createImportFile] succeeds, the file holds the text of the
    template's writes. *)
Lemma createImportFile_content (dir : string) (data : importDataList)
    (w w' : world) :
  createImportFile faults fitted dir data w = (None, w') →
  files w' !! importPath dir = Some (concat_str (import_writes data)).
Proof.
  intros Hrun.
  destruct (createImportFile_spec faults fitted dir data w) as (_ & H).
  rewrite Hrun in H. cbn [fst snd] in H.
  destruct H as [(e & ? & _)|(n & k & o & _ & Hf & ->)]; [done|].
  rewrite Hf, take_ge by done. cbn [left_behind].
  rewrite str_app_nil_r. apply lookup_insert_eq.
Qed.

(** C1: when [createImportFile] succeeds on a list of records, the file
    [auth0_import.tf] is the header comment of three lines followed by as
    many import blocks as there are records, the block at each position
    being that of the record at that position: the identifier between
    double quotes after [id = ], the resource name as it is after
    [to = ]; every block has an empty line before it. *)
Theorem createImportFile_blocks (dir : string) (data : importDataList)
    (w w' : world) :
  createImportFile faults fitted dir data w = (None, w') →
  ∃ blocks : list string,
    files w' !! importPath dir = Some (importFileText blocks)
    ∧ length blocks = length data
    ∧ ∀ (i : nat) (r : importDataItem),
        data !! i = Some r →
        blocks !! i
        = Some ("import {" +:+ nl +:+
                "  id = " +:+ quoted (ImportID r) +:+ nl +:+
                "  to = " +:+ ResourceName r +:+ nl +:+
                "}").
Proof.
  intros Hrun. exists (map importBlock data). split; [|split].
  - rewrite <- concat_import_writes. by eapply createImportFile_content.
  - apply length_map.
  - intros i r Hi. change (map importBlock data) with (importBlock <$> data).
    by rewrite list_lookup_fmap, Hi.
Qed.

(** C6: for the single record with identifier [auth0|123] and resource
    name [auth0_client.my_app], the file [auth0_import.tf] is the header
    comment, an empty line, the block of the record, and an empty line
    that ends the file; its lines that are not empty are the three lines
    of the header and the four lines of the block, and no other. *)
Theorem createImportFile_single (dir : string) (w w' : world) :
  createImportFile faults fitted dir [item_app] w = (None, w') →
  files w' !! importPath dir = Some file_app
  ∧ file_app = headerComment +:+ nl +:+ block_app +:+ nl +:+ nl
  ∧ nonblank_lines file_app
    = [ "# This file is automatically generated via the Auth0 CLI.";
        "# It can be safely removed after the successful generation";
        "# of Terraform resource definition files.";
        "import {";
        "  id = " +:+ quoted "auth0|123";
        "  to = auth0_client.my_app";
        "}" ].
Proof.
  intros Hrun. split; [|split].
  - erewrite createImportFile_content by done. f_equal.
  - reflexivity.
  - by vm_compute.
Qed.

End ImportFile.

Lemma createImportFile_blocks_witness :
  ∃ blocks : list string,
    files (createImportFile no_faults fit0 "out" [item_app; item_api] world0).2
      !! importPath "out" = Some (importFileText blocks)
    ∧ length blocks = 2%nat
    ∧ ∀ (i : nat) (r : importDataItem),
        [item_app; item_api] !! i = Some r →
        blocks !! i
        = Some ("import {" +:+ nl +:+
                "  id = " +:+ quoted (ImportID r) +:+ nl +:+
                "  to = " +:+ ResourceName r +:+ nl +:+
                "}").
Proof.
  apply (createImportFile_blocks no_faults fit0 "out" [item_app; item_api] world0).
  vm_compute. reflexivity.
Defined.

Lemma createImportFile_single_witness :
  files (createImportFile no_faults fit0 "out" [item_app] world0).2 !! "out/auth0_import.tf"
  = Some file_app.
Proof.
  apply (createImportFile_single no_faults fit0 "out" world0).
  vm_compute. reflexivity.
Defined.

(** ** The generator *)

Section GenerateFacts.

Context (faults : syscall → world → option error).
Context (fitted : syscall → world → nat).

(** C2: on the empty list, [generateTerraformConfigFiles] returns the
    error "no import data available"; no call is made into [os], so the
    import file is neither created nor written: it is as it was, present
    or absent. *)
Theorem generate_empty_error (dir : string) (w : world) :
  let r := (generateTerraformConfigFiles faults fitted dir [] w).1 in
  let w' := (generateTerraformConfigFiles faults fitted dir [] w).2 in
  r = Some (errors_New "no import data available")
  ∧ trace w' = trace w
  ∧ files w' !! importPath dir = files w !! importPath dir.
Proof. by rewrite generate_empty. Qed.

(** C10: on the empty list, [generateTerraformConfigFiles] leaves the
    world as it found it: no directory step, no file created or written,
    for [main.tf] as for [auth0_import.tf]. *)
Theorem generate_empty_no_mutation (dir : string) (w : world) :
  let w' := (generateTerraformConfigFiles faults fitted dir [] w).2 in
  w' = w
  ∧ (∀ t, trace w' = trace w ++ t → t = [])
  ∧ files w' = files w.
Proof.
  rewrite generate_empty. cbn. repeat split.
  intros t Ht. rewrite <- (app_nil_r (trace w)) in Ht at 1.
  by apply app_inv_head in Ht.
Qed.

(** C5: a successful run on a list that is not empty creates two files
    and no other, [main.tf] then [auth0_import.tf], both in the output
    directory and distinct; the files of the world are those it had, with
    these two set. The content of [main.tf] is [mainFileContent], the same
    text for every directory, every list and every environment: the
    [terraform] block that requires Terraform [~> 1.5.0] and the provider
    [auth0/auth0] at version [1.0.0-beta.1], an empty line, and the
    [provider "auth0"] block with [debug = true], line for line as
    spelled below. *)
Theorem generate_success_two_files (dir : string) (data : importDataList)
    (w w' : world) :
  data ≠ [] →
  generateTerraformConfigFiles faults fitted dir data w = (None, w') →
  mainPath dir = dir_prefix dir +:+ "main.tf"
  ∧ importPath dir = dir_prefix dir +:+ "auth0_import.tf"
  ∧ mainPath dir ≠ importPath dir
  ∧ (∃ t, trace w' = trace w ++ t
          ∧ created t = [mainPath dir; importPath dir])
  ∧ files w' = <[importPath dir := importFileText (map importBlock data)]>
                 (<[mainPath dir := mainFileContent]> (files w))
  ∧ files w' !! mainPath dir = Some mainFileContent
  ∧ files w' !! mainPath dir = Some main_tf_text
  ∧ lines main_tf_text
    = [ "terraform {";
        "  required_version = " +:+ quoted "~> 1.5.0";
        "  required_providers {";
        "    auth0 = {";
        "      source  = " +:+ quoted "auth0/auth0";
        "      version = " +:+ quoted "1.0.0-beta.1";
        "    }";
        "  }";
        "}";
        "";
        "provider " +:+ quoted "auth0" +:+ " {";
        "  debug = true";
        "}";
        "" ].
Proof.
  intros Hdata Hrun.
  destruct (generate_runs faults fitted dir data w Hdata) as (t & Ht & _ & Hgen).
  rewrite Hrun in Ht, Hgen. cbn [fst snd] in Ht, Hgen.
  inversion Hgen as [|o t0 r fs' Ho Hfiles]; subst.
  destruct (files_run_success _ _ _ _ _ _ Hfiles eq_refl) as (Hc & Hf).
  assert (Hmain : files w' !! mainPath dir = Some mainFileContent).
  { rewrite Hf.
    rewrite lookup_insert_ne by (apply not_eq_sym, mainPath_ne_importPath).
    apply lookup_insert_eq. }
  split; [apply mainPath_prefix|]. split; [apply importPath_prefix|].
  split; [apply mainPath_ne_importPath|].
  split; [|split; [|split; [|split]]].
  - eexists. split; [exact Ht|]. by destruct (faults _ w).
  - by rewrite Hf, concat_import_writes.
  - exact Hmain.
  - rewrite Hmain. f_equal.
  - vm_compute. reflexivity.
Qed.

(** C7: on a list that is not empty, the first call of
    [generateTerraformConfigFiles] is [os.MkdirAll] on the output
    directory with permission 0755 (read, write and execute for the
    owner, read and execute for the group and the others), and it is the
    only directory call. When it succeeds, or fails because the directory
    exists, the run goes on with the file steps, [main.tf] first; when it
    fails otherwise, that error is returned, no other call is made and
    the files are as they were. *)
Theorem generate_directory_step (dir : string) (data : importDataList)
    (w : world) :
  data ≠ [] →
  let mk := MkdirAll dir readWritePermission in
  let r := (generateTerraformConfigFiles faults fitted dir data w).1 in
  let w' := (generateTerraformConfigFiles faults fitted dir data w).2 in
  readWritePermission = 7 * 8 ^ 2 + 5 * 8 + 5
  ∧ perm_owner readWritePermission = 7
  ∧ perm_group readWritePermission = 5
  ∧ perm_others readWritePermission = 5
  ∧ ∃ t, trace w' = trace w ++ (mk, faults mk w) :: t
         ∧ Forall (λ ev, mkdir_call ev.1 = false) t
         ∧ if stops_at_mkdir (faults mk w)
           then r = faults mk w ∧ t = [] ∧ files w' = files w
           else generateTerraformConfigFiles faults fitted dir data w
                = write_files faults fitted dir data (after_mkdir dir (faults mk w) w)
                ∧ ∃ o t', t = (Create (mainPath dir), o) :: t'.
Proof.
  intros Hdata. cbn zeta. do 4 (split; [reflexivity|]).
  destruct (generate_runs faults fitted dir data w Hdata) as (t & Ht & _ & Hgen).
  cbn zeta in Ht, Hgen. exists t. split; [exact Ht|].
  rewrite generate_nonempty by done. cbn zeta.
  rewrite generate_nonempty in Hgen by done. cbn zeta in Hgen.
  set (o := faults (MkdirAll dir readWritePermission) w) in *.
  inversion Hgen as [e He Et Er Ef|o' t0 r fs' Ho Hfiles Et Er Ef].
  - split; [constructor|]. unfold stops_at_mkdir. rewrite He. done.
  - split; [by eapply files_run_no_mkdir|].
    assert (Hstop : stops_at_mkdir o = false).
    { unfold stops_at_mkdir. destruct o as [e|]; [|done]. by rewrite Ho. }
    rewrite Hstop. split.
    + destruct o as [e|]; [|done]. by rewrite Ho.
    + by eapply files_run_head.
Qed.

Lemma write_all_no_faults (name : string) (chunks : list string) (w : world) :
  (∀ c w1, file_call c = true → faults c w1 = None) →
  (write_all faults fitted name chunks w).1 = None.
Proof.
  intros Hnf. revert w. induction chunks as [|x chunks IH]; intros w; [done|].
  cbn [write_all]. unfold IO_bind, os_call.
  rewrite (Hnf (Write name x)) by done. apply IH.
Qed.

(** A template that does not parse: the error of the parse is returned. *)
Lemma createImportFile_from_parse_error (content dir : string)
    (data : importDataList) (e : error) (w : world) :
  Template.Parse content = inl e →
  faults (Create (importPath dir)) w = None →
  (createImportFile_from faults fitted content dir data w).1 = Some e.
Proof.
  intros Hparse Hc. unfold createImportFile_from. rewrite Hparse.
  fold (importPath dir). unfold IO_bind, os_call. by rewrite Hc.
Qed.

(** A template whose execution fails: when no write fails before it, the
    error of the execution is returned. *)
Lemma createImportFile_from_exec_error (content dir : string)
    (tpl : list Template.node) (data : importDataList) (e : error) (w : world) :
  Template.Parse content = inr tpl →
  (Template.Execute tpl data).2 = Some e →
  (∀ c w1, file_call c = true → faults c w1 = None) →
  (createImportFile_from faults fitted content dir data w).1 = Some e.
Proof.
  intros Hparse He Hnf. unfold createImportFile_from. rewrite Hparse.
  fold (importPath dir). unfold Execute_to.
  destruct (Template.Execute tpl data) as [chunks ee]. cbn in He. subst ee.
  unfold IO_bind, os_call at 1. rewrite (Hnf (Create (importPath dir))) by done.
  match goal with
  | |- context [write_all faults fitted ?n chunks ?w1] =>
      pose proof (write_all_no_faults n chunks w1 Hnf) as Hw;
      destruct (write_all faults fitted n chunks w1) as [rw w2]
  end.
  cbn in Hw. subst rw. reflexivity.
Qed.

(** C8: on a list that is not empty, when a call that creates or writes
    one of the two files fails, [generateTerraformConfigFiles] returns the
    error of that call as it is; and once [main.tf] is written it keeps
    its content to the end of the run, whatever happens to
    [auth0_import.tf]: nothing is rolled back. An error of the parse or
    of the execution of the template is returned as it is too (the
    template of the source has none, see [Parse_importFileContent] and
    [Execute_importTemplate]). *)
Theorem generate_errors_surface (dir : string) (data : importDataList)
    (w : world) :
  data ≠ [] →
  let r := (generateTerraformConfigFiles faults fitted dir data w).1 in
  let w' := (generateTerraformConfigFiles faults fitted dir data w).2 in
  (∃ t, trace w' = trace w ++ t
        ∧ (∀ c e, (c, Some e) ∈ t → file_call c = true → r = Some e)
        ∧ ((Write (mainPath dir) mainFileContent, None) ∈ t →
           files w' !! mainPath dir = Some mainFileContent))
  ∧ (∀ content e w0,
       Template.Parse content = inl e →
       faults (Create (importPath dir)) w0 = None →
       (createImportFile_from faults fitted content dir data w0).1 = Some e)
  ∧ (∀ content tpl e w0,
       Template.Parse content = inr tpl →
       (Template.Execute tpl data).2 = Some e →
       (∀ c w1, file_call c = true → faults c w1 = None) →
       (createImportFile_from faults fitted content dir data w0).1 = Some e).
Proof.
  intros Hdata. cbn zeta. split; [|split].
  - destruct (generate_runs faults fitted dir data w Hdata) as (t & Ht & _ & Hgen).
    cbn zeta in Ht, Hgen. eexists. split; [exact Ht|].
    inversion Hgen as [e He Et Er Ef|o' t0 r fs' Ho Hfiles Et Er Ef].
    + split.
      * intros c e' [Hin|Hin]%elem_of_cons Hc.
        -- injection Hin as -> _. discriminate.
        -- by apply elem_of_nil in Hin.
      * intros [Hin|Hin]%elem_of_cons; [discriminate|].
        by apply elem_of_nil in Hin.
    + split.
      * intros c e' [Hin|Hin]%elem_of_cons Hc.
        -- injection Hin as -> _. discriminate.
        -- by eapply files_run_file_error.
      * intros [Hin|Hin]%elem_of_cons; [discriminate|].
        by eapply files_run_main_kept.
  - intros. by apply createImportFile_from_parse_error.
  - intros. by eapply createImportFile_from_exec_error.
Qed.

End GenerateFacts.

(** ** The command *)

Section CommandFacts.

Context (faults : syscall → world → option error).
Context (fitted : syscall → world → nat).
Context {context API : Type}.
Context (clientResourceFetcher : API → resourceDataFetcher context).

(** C9: the command returns the error of the aggregation when it fails,
    and then the generator is not run: the world is as it was. When the
    aggregation succeeds the generator runs on its records; its error, if
    any, is returned and nothing is rendered. The result is nil exactly
    when both succeed, and then, and only then, the confirmation and the
    pointer to the quickstart are rendered. *)
Theorem generateTerraformCmdRun_result (c : cli) (inputs : terraformInputs)
    (cmd : Command) (args : list string) (w : world) :
  let fetched :=
    fetchImportData (Context_ cmd)
      (parseResourceFetchers clientResourceFetcher inputs (api c)) in
  let gen :=
    generateTerraformConfigFiles faults fitted (OutputDIR inputs) fetched.1 w in
  let r := (generateTerraformCmdRun faults fitted clientResourceFetcher
              c inputs cmd args w).1 in
  let w' := (generateTerraformCmdRun faults fitted clientResourceFetcher
               c inputs cmd args w).2 in
  match fetched.2 with
  | Some e => r = Some e ∧ w' = w
  | None =>
      files w' = files gen.2 ∧ trace w' = trace gen.2
      ∧ match gen.1 with
        | Some e => r = Some e ∧ rendered w' = rendered w
        | None =>
            r = None
            ∧ rendered w' = rendered w ++ [successMessage; quickstartMessage]
        end
  end
  ∧ (r = None ↔ fetched.2 = None ∧ gen.1 = None).
Proof.
  cbn zeta. unfold generateTerraformCmdRun.
  destruct (fetchImportData _ _) as [data [e|]]; cbn [fst snd].
  - unfold IO_ret. cbn. split; [done|]. split; [done|]. by intros [? _].
  - unfold IO_bind.
    destruct (generateTerraformConfigFiles faults fitted (OutputDIR inputs) data w)
      as [[e|] w1] eqn:Egen; cbn [fst snd].
    + unfold IO_ret. cbn. split; [|split; [done|by intros [_ ?]]].
      repeat split.
      destruct data as [|d data].
      * rewrite generate_empty in Egen. by injection Egen as _ <-.
      * pose proof (generate_runs faults fitted (OutputDIR inputs) (d :: data) w)
          as Hruns.
        destruct Hruns as (t & _ & Hr & _); [done|].
        by rewrite Egen in Hr.
    + unfold Infof, IO_ret. cbn. split; [|done].
      repeat split.
      destruct data as [|d data].
      * rewrite generate_empty in Egen. discriminate.
      * pose proof (generate_runs faults fitted (OutputDIR inputs) (d :: data) w)
          as Hruns.
        destruct Hruns as (t & _ & Hr & _); [done|].
        rewrite Egen in Hr. cbn in Hr. by rewrite Hr, <- app_assoc.
Qed.

End CommandFacts.

(** ** Examples *)

Lemma generate_success_two_files_witness :
  files (generateTerraformConfigFiles no_faults fit0 "out" [item_app; item_api] world0).2
    !! "out/main.tf" = Some mainFileContent.
Proof.
  apply (generate_success_two_files no_faults fit0 "out" [item_app; item_api] world0).
  - discriminate.
  - vm_compute. reflexivity.
Defined.

Lemma generate_directory_step_witness :
  generateTerraformConfigFiles faults_dir_exists fit0 "out" [item_app] world0
  = write_files faults_dir_exists fit0 "out" [item_app]
      (after_mkdir "out" (Some (PathError "mkdir" "out" EEXIST)) world0).
Proof.
  assert (Hdata : [item_app] ≠ []) by discriminate.
  destruct (generate_directory_step faults_dir_exists fit0 "out" [item_app] world0 Hdata)
    as (_ & _ & _ & _ & t & _ & _ & Hgo).
  exact (proj1 Hgo).
Defined.

Lemma generate_errors_surface_witness :
  (generateTerraformConfigFiles faults_import_denied fit0 "out" [item_app] world0).1
  = Some (PathError "open" "out/auth0_import.tf" EACCES)
  ∧ files (generateTerraformConfigFiles faults_import_denied fit0 "out" [item_app] world0).2
      !! "out/main.tf" = Some mainFileContent.
Proof.
  assert (Hdata : [item_app] ≠ []) by discriminate.
  destruct (generate_errors_surface faults_import_denied fit0 "out" [item_app] world0 Hdata)
    as ((t & Ht & Herr & Hkept) & _).
  vm_compute in Ht. subst t. split.
  - apply (Herr (Create "out/auth0_import.tf")); [|reflexivity].
    do 4 apply list_elem_of_further. apply list_elem_of_here.
  - apply Hkept.
    apply list_elem_of_further, list_elem_of_further, list_elem_of_here.
Defined.

(** [path.Clean] and [path.Join] on the cases of the Go documentation and
    tests. *)
Example Clean_examples :
  map path.Clean
    [ ""; "abc"; "abc/def/"; "../../abc"; "/"; "abc//def//ghi"; "//abc//";
      "abc/./def"; "abc/def/ghi/../jkl"; "abc/def/../.."; "/abc/def/../../..";
      "abc/def/../../../ghi/jkl/../../../mno"; "abc/../../././../def" ]
  = [ "."; "abc"; "abc/def"; "../../abc"; "/"; "abc/def/ghi"; "/abc";
      "abc/def"; "abc/def/jkl"; "."; "/";
      "../../mno"; "../../def" ].
Proof. vm_compute. reflexivity. Qed.

Example Join_examples :
  map path.Join
    [ ["a"; "b/c"]; ["a/b"; "../../../xyz"]; [""; ""]; ["a"; ""]; [""; "a"];
      ["/"; "a"]; ["./"; "main.tf"]; ["out/"; "auth0_import.tf"] ]
  = [ "a/b/c"; "../xyz"; ""; "a"; "a"; "/a"; "main.tf"; "out/auth0_import.tf" ].
Proof. vm_compute. reflexivity. Qed.

(** Templates that do not parse. *)
Example Parse_errors :
  map Template.Parse ["a{{ .X"; "{{end}}"; "{{range .}}x"]
  = [ inl (TemplateError "unclosed action");
      inl (TemplateError "unexpected {{end}}");
      inl (TemplateError "unexpected EOF") ].
Proof. vm_compute. reflexivity. Qed.

(** The calls of a run in which nothing fails, for one record. *)
Example generate_trace :
  trace (generateTerraformConfigFiles no_faults fit0 "./" [item_app] world0).2
  = [ (MkdirAll "./" 493, None);
      (Create "main.tf", None);
      (Write "main.tf" mainFileContent, None);
      (Close "main.tf", None);
      (Create "auth0_import.tf", None);
      (Write "auth0_import.tf" headerComment, None);
      (Write "auth0_import.tf" (nl +:+ "import {" +:+ nl +:+ "  id = " +:+ dq), None);
      (Write "auth0_import.tf" "auth0|123", None);
      (Write "auth0_import.tf" (dq +:+ nl +:+ "  to = "), None);
      (Write "auth0_import.tf" "auth0_client.my_app", None);
      (Write "auth0_import.tf" (nl +:+ "}" +:+ nl), None);
      (Write "auth0_import.tf" nl, None);
      (Close "auth0_import.tf", None) ].
Proof. vm_compute. reflexivity. Qed.

(** A fetcher that fails: the command returns its error and touches
    nothing. *)
Example command_fetch_fails :
  generateTerraformCmdRun no_faults fit0 (λ _ : unit, fetch_fail [item_app] (APIError "401"))
    {| api := tt |} {| OutputDIR := "./" |} {| Context_ := tt |} [] world0
  = (Some (APIError "401"), world0).
Proof. reflexivity. Qed.


(** * Further properties *)

(** ** Aggregation *)

Section FetchMore.

Context {context : Type}.
Implicit Types (ctx : context) (fetchers : list (resourceDataFetcher context)).

(** The loop with an accumulator, from the loop without. *)
Lemma fetchImportData_loop_acc ctx acc fetchers :
  fetchImportData_loop ctx acc fetchers
  = match fetchImportData_loop ctx [] fetchers with
    | (d, None) => (acc ++ d, None)
    | (_, Some e) => ([], Some e)
    end.
Proof.
  revert acc. induction fetchers as [|f fetchers IH]; intros acc; cbn.
  - by rewrite app_nil_r.
  - destruct (FetchData f ctx) as [data [e|]]; [done|].
    rewrite (IH (acc ++ data)), (IH data).
    destruct (fetchImportData_loop ctx [] fetchers) as [d [e|]]; [done|].
    by rewrite app_assoc.
Qed.

Lemma fetchImportData_loop_error_nil ctx acc fetchers d e :
  fetchImportData_loop ctx acc fetchers = (d, Some e) → d = [].
Proof.
  revert acc. induction fetchers as [|f fetchers IH]; intros acc; cbn.
  - discriminate.
  - destruct (FetchData f ctx) as [data [e'|]]; [by intros [= <- _]|].
    apply IH.
Qed.

(** X1: the error of [fetchImportData] is nil exactly when every fetcher of
    the list succeeds. *)
Theorem fetchImportData_nil_error_iff ctx fetchers :
  (fetchImportData ctx fetchers).2 = None ↔ Forall (succeeds ctx) fetchers.
Proof.
  unfold fetchImportData. split.
  - induction fetchers as [|f fetchers IH]; [constructor|].
    cbn. unfold succeeds at 1.
    destruct (FetchData f ctx) as [data [e|]] eqn:E; [discriminate|].
    rewrite fetchImportData_loop_acc.
    destruct (fetchImportData_loop ctx [] fetchers) as [d [e|]] eqn:E';
      [discriminate|].
    intros _. constructor; [by rewrite E | by apply IH].
  - intros H. rewrite <- (app_nil_r fetchers).
    by rewrite fetchImportData_loop_app.
Qed.

(** X2: an error returned by [fetchImportData] is the error of a fetcher of
    the list before which every fetcher succeeds, and it comes with a nil
    list. *)
Theorem fetchImportData_error_inv ctx fetchers d e :
  fetchImportData ctx fetchers = (d, Some e) →
  d = []
  ∧ ∃ pre f post d',
      fetchers = pre ++ f :: post
      ∧ Forall (succeeds ctx) pre
      ∧ FetchData f ctx = (d', Some e).
Proof.
  unfold fetchImportData. revert d.
  induction fetchers as [|f fetchers IH]; intros d; [discriminate|].
  cbn. destruct (FetchData f ctx) as [data [e'|]] eqn:E.
  - intros [= <- <-]. split; [done|].
    exists [], f, fetchers, data. by repeat split.
  - rewrite fetchImportData_loop_acc.
    destruct (fetchImportData_loop ctx [] fetchers) as [d0 [e'|]] eqn:E';
      [|discriminate].
    intros [= <- <-].
    destruct (IH d0 eq_refl) as (_ & pre & g & post & d' & -> & Hpre & Hg).
    split; [done|]. exists (f :: pre), g, post, d'. repeat split; [|done].
    constructor; [|done]. unfold succeeds. by rewrite E.
Qed.

(** X3: aggregation over two lists of fetchers in sequence: the error of
    the first list if it has one; otherwise the error of the second if it
    has one; otherwise the records of the first followed by those of the
    second. *)
Theorem fetchImportData_app ctx fetchers1 fetchers2 :
  fetchImportData ctx (fetchers1 ++ fetchers2)
  = match fetchImportData ctx fetchers1 with
    | (_, Some e) => ([], Some e)
    | (d1, None) =>
        match fetchImportData ctx fetchers2 with
        | (_, Some e) => ([], Some e)
        | (d2, None) => (d1 ++ d2, None)
        end
    end.
Proof.
  unfold fetchImportData.
  induction fetchers1 as [|f fetchers1 IH].
  - cbn. destruct (fetchImportData_loop ctx [] fetchers2) as [d [e|]] eqn:E;
      [|done].
    by rewrite (fetchImportData_loop_error_nil _ _ _ _ _ E).
  - cbn. destruct (FetchData f ctx) as [data [e|]]; [done|].
    rewrite (fetchImportData_loop_acc ctx data (fetchers1 ++ fetchers2)).
    rewrite (fetchImportData_loop_acc ctx data fetchers1).
    rewrite IH.
    destruct (fetchImportData_loop ctx [] fetchers1) as [d1 [e|]]; [done|].
    destruct (fetchImportData_loop ctx [] fetchers2) as [d2 [e|]]; [done|].
    by rewrite app_assoc.
Qed.

End FetchMore.

Lemma fetchImportData_error_inv_witness :
  ∃ pre f post d',
    [fetch_ok [item_app]; fetch_fail [item_api] (APIError "401"); fetch_ok [item_api]]
    = pre ++ f :: post
    ∧ Forall (succeeds tt) pre
    ∧ FetchData f tt = (d', Some (APIError "401")).
Proof.
  apply (fetchImportData_error_inv tt
           [fetch_ok [item_app]; fetch_fail [item_api] (APIError "401");
            fetch_ok [item_api]] [] (APIError "401")).
  reflexivity.
Defined.

(** ** Runs of the generator *)

Lemma closed_app (t1 t2 : events) : closed (t1 ++ t2) = closed t1 ++ closed t2.
Proof.
  induction t1 as [|[c o] t1 IH]; [done|].
  cbn [app closed]. destruct c; cbn [app]; by rewrite ?IH.
Qed.

Lemma closed_ok_writes (name : string) (chunks : list string) :
  closed (ok_writes name chunks) = [].
Proof. induction chunks; [done | by cbn]. Qed.

Lemma closed_failed_write (name : string) (chunk : option string) (r : option error) :
  closed (failed_write name chunk r) = [].
Proof. by destruct r, chunk. Qed.

Lemma str_take_prefix (k : nat) (x : string) : str_prefix (str_take k x) x.
Proof.
  revert x. induction k as [|k IH]; intros x.
  - by exists x.
  - destruct x as [|c x]; [by exists ""|].
    destruct (IH x) as [rest Hrest]. exists rest.
    cbn [str_take]. rewrite str_app_cons. by f_equal.
Qed.

(** The chunks before chunk [n] and a beginning of chunk [n] make a
    beginning of the whole. *)
Lemma concat_str_partial_prefix (n k : nat) (x : string) (l : list string) :
  l !! n = Some x →
  str_prefix (concat_str (take n l) +:+ str_take k x) (concat_str l).
Proof.
  intros Hx. destruct (str_take_prefix k x) as [rest Hrest].
  exists (rest +:+ concat_str (drop (S n) l)).
  rewrite <- (take_drop_middle l n x Hx) at 1.
  rewrite concat_str_app. cbn [concat_str].
  rewrite Hrest at 1. by rewrite !str_app_assoc.
Qed.

Section RunMore.

Context (dir : string) (data : importDataList) (fs fs' : gmap string string)
        (t : events) (r : option error).

(** The file steps leave every other file as it was. *)
Lemma files_run_frame (p : string) :
  files_run dir data fs t r fs' →
  p ≠ mainPath dir → p ≠ importPath dir → fs' !! p = fs !! p.
Proof.
  intros Hrun Hm Hi. destruct Hrun; by rewrite ?lookup_insert_ne.
Qed.

(** The file steps close what they created. *)
Lemma files_run_closed :
  files_run dir data fs t r fs' → closed t = created t.
Proof.
  intros Hrun.
  destruct Hrun; unfold main_events, import_events;
    rewrite ?closed_app, ?created_app; cbn [closed created app];
    rewrite ?closed_app, ?created_app, ?closed_ok_writes, ?created_ok_writes,
      ?closed_failed_write, ?created_failed_write;
    done.
Qed.

(** In the file steps, whatever comes before the creation of the import
    file holds the complete write of [main.tf]. *)
Lemma files_run_main_first (t1 t2 : events) (o : option error) :
  files_run dir data fs t r fs' →
  t = t1 ++ (Create (importPath dir), o) :: t2 →
  (Write (mainPath dir) mainFileContent, None) ∈ t1.
Proof.
  intros Hrun Ht.
  destruct Hrun; unfold main_events in Ht; cbn [app] in Ht;
    destruct t1 as [|a [|b [|c t1]]]; cbn [app] in Ht; simplify_eq;
    try (by destruct (mainPath_ne_importPath dir));
    try (by destruct t1);
    apply list_elem_of_further, list_elem_of_here.
Qed.

(** The import file, once created, holds a beginning of its full text. *)
Lemma files_run_import_prefix :
  files_run dir data fs t r fs' →
  (Create (importPath dir), None) ∈ t →
  ∃ s, fs' !! importPath dir = Some s
       ∧ str_prefix s (concat_str (import_writes data)).
Proof.
  intros Hrun Hin.
  assert (Hne : (Create (importPath dir), @None error) ≠ (Create (mainPath dir), None)).
  { intros [= H]. by apply (mainPath_ne_importPath dir). }
  destruct Hrun.
  - split_events Hin. discriminate.
  - unfold main_events in Hin. split_events Hin; by try discriminate.
  - unfold main_events in Hin. split_events Hin; by try discriminate.
  - eexists. rewrite lookup_insert_eq. split; [done|].
    by apply concat_str_partial_prefix.
  - eexists. rewrite lookup_insert_eq. split; [done|].
    exists "". by rewrite str_app_nil_r.
Qed.

(** An error of the file steps is the error of a call that creates or
    writes a file. *)
Lemma files_run_error_origin (e : error) :
  files_run dir data fs t r fs' → r = Some e →
  ∃ c, (c, Some e) ∈ t ∧ file_call c = true.
Proof.
  intros Hrun Hr. destruct Hrun as [e0|e0 o k|o e0|o n e0 o' k x Hx|]; try discriminate;
    injection Hr as ->.
  - exists (Create (mainPath dir)). split; [apply list_elem_of_here|done].
  - exists (Write (mainPath dir) mainFileContent).
    split; [apply list_elem_of_further, list_elem_of_here|done].
  - exists (Create (importPath dir)). split; [|done].
    apply elem_of_app. right. apply list_elem_of_here.
  - exists (Write (importPath dir) x). split; [|done].
    apply elem_of_app. right. unfold import_events.
    apply list_elem_of_further, elem_of_app. right.
    apply elem_of_app. left. rewrite Hx. apply list_elem_of_here.
Qed.

End RunMore.

Section GenerateMore.

Context (faults : syscall → world → option error).
Context (fitted : syscall → world → nat).

(** Every run of [generateTerraformConfigFiles]: nothing on the empty
    list, a run of [generate_run] otherwise. *)
Lemma generate_runs_any (dir : string) (data : importDataList) (w : world) :
  let r := (generateTerraformConfigFiles faults fitted dir data w).1 in
  let w' := (generateTerraformConfigFiles faults fitted dir data w).2 in
  rendered w' = rendered w
  ∧ ∃ t, trace w' = trace w ++ t
         ∧ ((data = [] ∧ t = [] ∧ files w' = files w
             ∧ r = Some (errors_New "no import data available"))
            ∨ (data ≠ [] ∧ generate_run dir data (files w) t r (files w'))).
Proof.
  destruct data as [|d data].
  - rewrite generate_empty. cbn. split; [done|]. exists [].
    rewrite app_nil_r. split; [done|]. by left.
  - destruct (generate_runs faults fitted dir (d :: data) w) as (t & Ht & Hr & Hrun);
      [done|].
    cbn zeta in *. split; [done|]. eexists. split; [exact Ht|]. by right.
Qed.

(** X4: whatever the list and whatever fails, [generateTerraformConfigFiles]
    leaves every file other than [main.tf] and [auth0_import.tf] of the
    output directory as it was, and renders nothing. *)
Theorem generate_frame (dir : string) (data : importDataList) (w : world)
    (p : string) :
  p ≠ mainPath dir → p ≠ importPath dir →
  let w' := (generateTerraformConfigFiles faults fitted dir data w).2 in
  files w' !! p = files w !! p ∧ rendered w' = rendered w.
Proof.
  intros Hm Hi. cbn zeta.
  destruct (generate_runs_any dir data w) as (Hr & t & _ & H). cbn zeta in *.
  split; [|done].
  destruct H as [(_ & _ & -> & _)|(_ & Hrun)]; [done|].
  inversion Hrun; subst; [done|]. by eapply files_run_frame.
Qed.

(** X6: every file that a run of [generateTerraformConfigFiles] creates is
    closed in that run, in the order of creation, and nothing else is
    closed: whether the writes succeed or fail, and whatever the close
    itself returns. *)
Theorem generate_closes_created (dir : string) (data : importDataList)
    (w : world) :
  ∃ t, trace (generateTerraformConfigFiles faults fitted dir data w).2 = trace w ++ t
       ∧ closed t = created t.
Proof.
  destruct (generate_runs_any dir data w) as (_ & t & Ht & H). cbn zeta in *.
  exists t. split; [done|].
  destruct H as [(_ & -> & _)|(_ & Hrun)]; [done|].
  inversion Hrun as [|o t0 r fs' Ho Hfiles]; subst.
  - by destruct (os_IsExist e).
  - cbn [closed created]. rewrite (files_run_closed _ _ _ _ _ _ Hfiles).
    by destruct o.
Qed.

(** X7: in every run, the calls made before [auth0_import.tf] is created
    (or its creation attempted) include the complete, successful write of
    [main.tf]. *)
Theorem generate_main_before_import (dir : string) (data : importDataList)
    (w : world) (t1 t2 : events) (o : option error) :
  trace (generateTerraformConfigFiles faults fitted dir data w).2
  = trace w ++ t1 ++ (Create (importPath dir), o) :: t2 →
  (Write (mainPath dir) mainFileContent, None) ∈ t1.
Proof.
  intros Htr.
  destruct (generate_runs_any dir data w) as (_ & t & Ht & H). cbn zeta in *.
  rewrite Ht in Htr. apply app_inv_head in Htr. subst t.
  destruct H as [(_ & Hnil & _)|(_ & Hrun)].
  - by destruct t1.
  - inversion Hrun as [e He Et|o' t0 r fs' Ho Hfiles Et]; subst.
    + destruct t1 as [|a [|b t1]]; discriminate.
    + destruct t1 as [|a t1]; [discriminate|].
      injection Et as <- Et.
      apply list_elem_of_further.
      by eapply files_run_main_first.
Qed.

(** X9: when a run has created [auth0_import.tf], the file holds a
    beginning of the full text for the list, whatever failed afterwards:
    the writes are made in order, a write that fails leaves at most a
    beginning of its own data, and nothing is written after a failure. *)
Theorem generate_import_prefix (dir : string) (data : importDataList)
    (w : world) (t : events) :
  trace (generateTerraformConfigFiles faults fitted dir data w).2 = trace w ++ t →
  (Create (importPath dir), None) ∈ t →
  ∃ s, files (generateTerraformConfigFiles faults fitted dir data w).2 !! importPath dir
       = Some s
       ∧ str_prefix s (importFileText (map importBlock data)).
Proof.
  intros Htr Hin.
  destruct (generate_runs_any dir data w) as (_ & t' & Ht & H). cbn zeta in *.
  rewrite Ht in Htr. apply app_inv_head in Htr. subst t'.
  rewrite <- concat_import_writes.
  destruct H as [(_ & -> & _)|(_ & Hrun)].
  - by apply elem_of_nil in Hin.
  - inversion Hrun as [e He Et|o' t0 r fs' Ho Hfiles Et]; subst.
    + split_events Hin. discriminate.
    + apply elem_of_cons in Hin as [Hin|Hin]; [discriminate|].
      by eapply files_run_import_prefix.
Qed.

(** X11: an error returned by [generateTerraformConfigFiles] is either "no
    import data available", for the empty list, or the error of a call of
    the run that makes the directory, creates a file or writes one; the
    error of a close is never returned. *)
Theorem generate_error_origin (dir : string) (data : importDataList)
    (w : world) (e : error) :
  (generateTerraformConfigFiles faults fitted dir data w).1 = Some e →
  (data = [] ∧ e = errors_New "no import data available")
  ∨ ∃ t c, trace (generateTerraformConfigFiles faults fitted dir data w).2 = trace w ++ t
           ∧ (c, Some e) ∈ t
           ∧ (file_call c = true ∨ mkdir_call c = true).
Proof.
  intros Hr.
  destruct (generate_runs_any dir data w) as (_ & t & Ht & H). cbn zeta in *.
  destruct H as [(-> & _ & _ & He)|(_ & Hrun)].
  - left. split; [done|]. rewrite Hr in He. by injection He.
  - right. exists t. rewrite Hr in Hrun.
    inversion Hrun as [e0 He Et|o' t0 r fs' Ho Hfiles Et]; subst.
    + eexists. split; [done|]. split; [apply list_elem_of_here|]. by right.
    + destruct (files_run_error_origin _ _ _ _ _ _ e Hfiles eq_refl)
        as (c & Hc & Hfc).
      exists c. split; [done|]. split; [by apply list_elem_of_further|by left].
Qed.

Lemma IO_bind_run {A B} (m : IO A) (f : A → IO B) (w : world) :
  IO_bind m f w = f (m w).1 (m w).2.
Proof. unfold IO_bind. by destruct (m w). Qed.

Lemma os_call_fst (c : syscall) (w : world) :
  (os_call faults fitted c w).1 = faults c w.
Proof. reflexivity. Qed.

Lemma createMainFile_no_faults (dir : string) (w : world) :
  (∀ c w1, file_call c = true → faults c w1 = None) →
  (createMainFile faults fitted dir w).1 = None.
Proof.
  intros Hfile. unfold createMainFile.
  rewrite IO_bind_run, os_call_fst, Hfile by done.
  rewrite IO_bind_run, os_call_fst, Hfile by done.
  by rewrite IO_bind_run.
Qed.

Lemma createImportFile_no_faults (dir : string) (data : importDataList)
    (w : world) :
  (∀ c w1, file_call c = true → faults c w1 = None) →
  (createImportFile faults fitted dir data w).1 = None.
Proof.
  intros Hfile. unfold createImportFile, createImportFile_from.
  rewrite Parse_importFileContent. unfold Execute_to.
  rewrite Execute_importTemplate.
  rewrite IO_bind_run, os_call_fst, Hfile by done.
  rewrite !IO_bind_run, write_all_no_faults by done.
  reflexivity.
Qed.

(** X10: when no call other than a close fails, the run on a list that is
    not empty succeeds: the errors of [file.Close] are dropped. *)
Theorem generate_close_errors_ignored (dir : string) (data : importDataList)
    (w : world) :
  (∀ c w1, file_call c = true ∨ mkdir_call c = true → faults c w1 = None) →
  data ≠ [] →
  (generateTerraformConfigFiles faults fitted dir data w).1 = None.
Proof.
  intros Hnf Hdata.
  assert (Hfile : ∀ c w1, file_call c = true → faults c w1 = None) by auto.
  rewrite generate_nonempty by done. cbn zeta.
  rewrite (Hnf (MkdirAll dir readWritePermission)) by (by right).
  unfold write_files. rewrite IO_bind_run, createMainFile_no_faults by done.
  by apply createImportFile_no_faults.
Qed.

End GenerateMore.

(** X8: a second successful run over the files of a first successful run,
    for the same directory and list, leaves the files as the first run left
    them, whatever the environments of the two runs: the two files are
    written anew with the same contents. *)
Theorem generate_twice (faults1 : syscall → world → option error)
    (fitted1 : syscall → world → nat)
    (faults2 : syscall → world → option error)
    (fitted2 : syscall → world → nat)
    (dir : string) (data : importDataList) (w w1 w2 : world) :
  generateTerraformConfigFiles faults1 fitted1 dir data w = (None, w1) →
  generateTerraformConfigFiles faults2 fitted2 dir data w1 = (None, w2) →
  files w2 = files w1.
Proof.
  intros H1 H2.
  assert (Hsucc : ∀ faults fitted wa wb,
    generateTerraformConfigFiles faults fitted dir data wa = (None, wb) →
    files wb = <[importPath dir := concat_str (import_writes data)]>
                 (<[mainPath dir := mainFileContent]> (files wa))).
  { intros faults fitted wa wb Hrun.
    destruct (generate_runs_any faults fitted dir data wa) as (_ & t & _ & H).
    rewrite Hrun in H. cbn [fst snd] in H.
    destruct H as [(_ & _ & _ & ?)|(_ & Hgen)]; [discriminate|].
    inversion Hgen as [|o t0 r fs' Ho Hfiles]; subst.
    by destruct (files_run_success _ _ _ _ _ _ Hfiles eq_refl). }
  rewrite (Hsucc _ _ _ _ H2), (Hsucc _ _ _ _ H1).
  rewrite (insert_insert_ne _ (mainPath dir) (importPath dir))
    by apply mainPath_ne_importPath.
  by rewrite !insert_insert_eq.
Qed.

(** ** The output directory *)

Lemma dir_prefix_slash (dir : string) :
  dir ≠ "" → dir_prefix (dir +:+ "/") = dir_prefix dir.
Proof.
  intros Hdir. unfold dir_prefix.
  rewrite decide_False by (intros H; apply str_app_eq_nil in H; discriminate).
  rewrite decide_False by done.
  rewrite rooted_app by done.
  assert (Hsplit : path.split (dir +:+ "/") = path.split dir ++ [""]).
  { unfold path.split. apply (split_go_slash "" dir ""). }
  rewrite Hsplit, fold_left_app. reflexivity.
Qed.

(** X12: a slash at the end of an output directory that is not empty
    changes nothing: the two files have the same paths with and without
    it. *)
Theorem output_dir_trailing_slash (dir : string) :
  dir ≠ "" →
  mainPath (dir +:+ "/") = mainPath dir
  ∧ importPath (dir +:+ "/") = importPath dir.
Proof.
  intros Hdir.
  by rewrite !mainPath_prefix, !importPath_prefix, dir_prefix_slash.
Qed.

(** ** The lines of the import file *)

Lemma raw_lines_app (l1 l2 : list string) :
  raw_lines (l1 ++ l2) = raw_lines l1 +:+ raw_lines l2.
Proof. unfold raw_lines. by rewrite map_app, concat_str_app. Qed.

Lemma raw_lines_record (r : importDataItem) :
  raw_lines (record_lines r) = nl +:+ importBlock r +:+ nl.
Proof.
  unfold raw_lines, record_lines, importBlock. cbn [map concat_str].
  by rewrite str_app_nil_r, !str_app_assoc.
Qed.

(** The import file is made of whole lines: those of the header, those of
    the records, and an empty one. *)
Lemma importFileText_raw_lines (data : importDataList) :
  importFileText (map importBlock data)
  = raw_lines (header_lines ++ flat_map record_lines data ++ [""]).
Proof.
  unfold importFileText. rewrite !raw_lines_app.
  change (raw_lines header_lines) with headerComment.
  change (raw_lines [""]) with nl.
  f_equal. f_equal.
  induction data as [|r data IH]; [done|].
  cbn [map flat_map concat_str].
  by rewrite raw_lines_app, raw_lines_record, IH, !str_app_assoc.
Qed.

Lemma no_nl_app (a b : string) : no_nl (a +:+ b) = no_nl a && no_nl b.
Proof.
  induction a as [|c a IH]; [done|].
  rewrite str_app_cons. cbn [no_nl]. by destruct (decide (c = "010"%char)).
Qed.

Lemma lines_go_line (cur a rest : string) :
  no_nl a = true →
  lines_go cur (a +:+ nl +:+ rest) = (cur +:+ a) :: lines_go "" rest.
Proof.
  revert cur. induction a as [|c a IH]; intros cur Ha.
  - rewrite str_app_nil_r. reflexivity.
  - cbn [no_nl] in Ha. rewrite str_app_cons. cbn [lines_go].
    destruct (decide (c = "010"%char)); [discriminate|].
    rewrite IH by done. by rewrite str_app_assoc.
Qed.

(** The lines of a text made of whole lines without line feeds are these
    lines, and an empty one after the last line feed. *)
Lemma lines_raw_lines (ls : list string) :
  Forall (λ l, no_nl l = true) ls → lines (raw_lines ls) = ls ++ [""].
Proof.
  unfold lines, raw_lines. induction 1 as [|l ls Hl _ IH]; [done|].
  cbn [map concat_str app]. rewrite str_app_assoc, lines_go_line by done.
  by rewrite IH.
Qed.

Lemma no_nl_record_lines (r : importDataItem) :
  no_nl (ImportID r) = true → no_nl (ResourceName r) = true →
  Forall (λ l, no_nl l = true) (record_lines r).
Proof.
  intros Hid Hname. unfold record_lines, quoted.
  repeat constructor; rewrite ?no_nl_app, ?Hid, ?Hname; done.
Qed.

(** The lines of the import file of a list whose fields hold no line
    feed. *)
Lemma importFileText_lines (data : importDataList) :
  Forall (λ r, no_nl (ImportID r) = true ∧ no_nl (ResourceName r) = true) data →
  lines (importFileText (map importBlock data))
  = header_lines ++ flat_map record_lines data ++ [""; ""].
Proof.
  intros Hdata. rewrite importFileText_raw_lines, lines_raw_lines.
  - by rewrite <- !app_assoc.
  - apply Forall_app. split; [by repeat constructor|].
    apply Forall_app. split; [|by repeat constructor].
    induction Hdata as [|r data [Hid Hname] _ IH]; [constructor|].
    cbn [flat_map]. apply Forall_app. split; [|done].
    by apply no_nl_record_lines.
Qed.

(** Among the lines of a record, one is the opening of a block. *)
Lemma filter_import_record_lines (r : importDataItem) :
  filter (λ l, l = "import {") (record_lines r) = ["import {"].
Proof.
  unfold record_lines, quoted.
  rewrite filter_cons_False by done.
  rewrite filter_cons_True by done.
  rewrite filter_cons_False by (rewrite !str_app_cons; discriminate).
  rewrite filter_cons_False by (rewrite !str_app_cons; discriminate).
  by rewrite filter_cons_False.
Qed.

Section ImportLines.

Context (faults : syscall → world → option error).
Context (fitted : syscall → world → nat).

(** X13: when no identifier and no resource name holds a line feed, the
    lines of the import file that a successful [createImportFile] leaves
    are the three lines of the header, then for every record in order an
    empty line and the four lines of its block, then two empty lines (the
    empty line that ends the template, and the end of the text after the
    last line feed). *)
Theorem createImportFile_lines (dir : string) (data : importDataList)
    (w w' : world) :
  createImportFile faults fitted dir data w = (None, w') →
  Forall (λ r, no_nl (ImportID r) = true ∧ no_nl (ResourceName r) = true) data →
  ∃ content,
    files w' !! importPath dir = Some content
    ∧ lines content = header_lines ++ flat_map record_lines data ++ [""; ""].
Proof.
  intros Hrun Hdata. eexists. split.
  - by eapply createImportFile_content.
  - rewrite concat_import_writes. by apply importFileText_lines.
Qed.

(** X14: when no identifier and no resource name holds a line feed, the
    import file that a successful [createImportFile] leaves has as many
    lines that open a block as the list has records. *)
Theorem createImportFile_import_count (dir : string) (data : importDataList)
    (w w' : world) :
  createImportFile faults fitted dir data w = (None, w') →
  Forall (λ r, no_nl (ImportID r) = true ∧ no_nl (ResourceName r) = true) data →
  ∃ content,
    files w' !! importPath dir = Some content
    ∧ length (filter (λ l, l = "import {") (lines content)) = length data.
Proof.
  intros Hrun Hdata. eexists. split.
  - by eapply createImportFile_content.
  - rewrite concat_import_writes, importFileText_lines by done.
    rewrite !filter_app, !length_app.
    change (length (filter (λ l, l = "import {") header_lines)) with 0%nat.
    change (length (filter (λ l, l = "import {") [""; ""])) with 0%nat.
    rewrite Nat.add_0_r. cbn [Nat.add]. clear.
    induction data as [|r data IH]; [done|].
    cbn [flat_map]. rewrite filter_app, length_app, filter_import_record_lines.
    cbn [length Nat.add]. by rewrite IH.
Qed.

End ImportLines.

(** X15: the fields are written as they are, so the import file does not
    determine the list: there are two lists of different lengths for which
    [createImportFile], when it succeeds, leaves the same file. A resource
    name that spells the end of a block and a block of its own reads as two
    records. *)
Theorem createImportFile_not_injective :
  ∃ data1 data2 : importDataList,
    length data1 ≠ length data2
    ∧ ∀ faults fitted dir w w1 w2,
        createImportFile faults fitted dir data1 w = (None, w1) →
        createImportFile faults fitted dir data2 w = (None, w2) →
        files w1 !! importPath dir = files w2 !! importPath dir.
Proof.
  exists [item_forged], [item_one; item_two]. split; [done|].
  intros faults fitted dir w w1 w2 H1 H2.
  rewrite (createImportFile_content _ _ _ _ _ _ H1).
  rewrite (createImportFile_content _ _ _ _ _ _ H2).
  f_equal.
Qed.

(** ** The command, end to end *)

Section CommandMore.

Context (faults : syscall → world → option error).
Context (fitted : syscall → world → nat).
Context {context API : Type}.
Context (clientResourceFetcher : API → resourceDataFetcher context).

(** The files and the messages after a successful run of the generator. *)
Lemma generate_success_world (dir : string) (data : importDataList)
    (w w' : world) :
  generateTerraformConfigFiles faults fitted dir data w = (None, w') →
  files w' = <[importPath dir := importFileText (map importBlock data)]>
               (<[mainPath dir := mainFileContent]> (files w))
  ∧ rendered w' = rendered w.
Proof.
  intros Hrun.
  destruct (generate_runs_any faults fitted dir data w) as (Hr & t & _ & H).
  rewrite Hrun in H, Hr. cbn [fst snd] in H, Hr. split; [|done].
  destruct H as [(_ & _ & _ & ?)|(_ & Hgen)]; [discriminate|].
  inversion Hgen as [|o t0 r fs' Ho Hfiles]; subst.
  destruct (files_run_success _ _ _ _ _ _ Hfiles eq_refl) as (_ & ->).
  by rewrite concat_import_writes.
Qed.

(** X16: when the tenant has no client application (the fetcher of
    clients returns no record and no error), the command fails with "no
    import data available" and leaves the world as it was: no directory,
    no file, no message. *)
Theorem command_no_records (c : cli) (inputs : terraformInputs)
    (cmd : Command) (args : list string) (w : world) :
  FetchData (clientResourceFetcher (api c)) (Context_ cmd) = ([], None) →
  generateTerraformCmdRun faults fitted clientResourceFetcher c inputs cmd args w
  = (Some (errors_New "no import data available"), w).
Proof.
  intros Hfetch. unfold generateTerraformCmdRun, parseResourceFetchers.
  unfold fetchImportData. cbn [fetchImportData_loop]. by rewrite Hfetch.
Qed.

(** X17: when the fetcher of clients returns records and the command
    succeeds, the two files of the output directory hold the fixed text of
    [main.tf] and the import blocks of exactly these records, in the order
    the fetcher returned them; the other files are as they were, and the
    two messages are rendered after those already there. *)
Theorem command_success (c : cli) (inputs : terraformInputs)
    (cmd : Command) (args : list string) (data : importDataList)
    (w w' : world) :
  FetchData (clientResourceFetcher (api c)) (Context_ cmd) = (data, None) →
  generateTerraformCmdRun faults fitted clientResourceFetcher c inputs cmd args w
  = (None, w') →
  files w' = <[importPath (OutputDIR inputs)
                 := importFileText (map importBlock data)]>
               (<[mainPath (OutputDIR inputs) := mainFileContent]> (files w))
  ∧ rendered w' = rendered w ++ [successMessage; quickstartMessage].
Proof.
  intros Hfetch. unfold generateTerraformCmdRun, parseResourceFetchers.
  unfold fetchImportData. cbn [fetchImportData_loop]. rewrite Hfetch.
  cbn [app]. rewrite IO_bind_run.
  destruct (generateTerraformConfigFiles faults fitted (OutputDIR inputs) data w)
    as [[e|] w1] eqn:Egen; cbn [fst snd]; [discriminate|].
  destruct (generate_success_world _ _ _ _ Egen) as (Hf & Hr).
  unfold IO_bind, Infof, IO_ret. intros [= <-]. cbn [files rendered].
  by rewrite Hf, Hr, <- app_assoc.
Qed.

End CommandMore.

(** ** Examples for the further properties *)

Lemma generate_frame_witness :
  files (generateTerraformConfigFiles faults_import_denied fit0 "out" [item_app] world1).2
    !! "notes.txt" = Some "keep".
Proof.
  refine (eq_trans (proj1 (generate_frame faults_import_denied fit0 "out" [item_app]
                             world1 "notes.txt" _ _)) _).
  - by vm_compute.
  - by vm_compute.
  - reflexivity.
Defined.

Lemma generate_main_before_import_witness :
  (Write "out/main.tf" mainFileContent, None)
  ∈ take 4 (trace (generateTerraformConfigFiles no_faults fit0 "out" [item_app] world0).2).
Proof.
  apply (generate_main_before_import no_faults fit0 "out" [item_app] world0
           (take 4 (trace (generateTerraformConfigFiles no_faults fit0 "out"
                             [item_app] world0).2))
           (drop 5 (trace (generateTerraformConfigFiles no_faults fit0 "out"
                             [item_app] world0).2))
           None).
  vm_compute. reflexivity.
Defined.

Lemma generate_twice_witness :
  files (generateTerraformConfigFiles no_faults fit5 "out" [item_app]
           (generateTerraformConfigFiles faults_close_fails fit0 "out" [item_app]
              world1).2).2
  = files (generateTerraformConfigFiles faults_close_fails fit0 "out" [item_app]
             world1).2.
Proof.
  apply (generate_twice faults_close_fails fit0 no_faults fit5 "out" [item_app] world1).
  - vm_compute. reflexivity.
  - vm_compute. reflexivity.
Defined.

Lemma generate_import_prefix_witness :
  ∃ s, files (generateTerraformConfigFiles faults_disk_full fit5 "out" [item_app] world0).2
         !! importPath "out" = Some s
       ∧ str_prefix s (importFileText (map importBlock [item_app])).
Proof.
  apply (generate_import_prefix faults_disk_full fit5 "out" [item_app] world0
           (trace (generateTerraformConfigFiles faults_disk_full fit5 "out"
                     [item_app] world0).2)).
  - reflexivity.
  - vm_compute. do 4 apply list_elem_of_further. apply list_elem_of_here.
Defined.

Lemma generate_close_errors_ignored_witness :
  (generateTerraformConfigFiles faults_close_fails fit0 "out" [item_app] world0).1 = None.
Proof.
  apply (generate_close_errors_ignored faults_close_fails fit0 "out" [item_app] world0).
  - intros c w1 [H|H]; destruct c; try discriminate H; reflexivity.
  - discriminate.
Defined.

Lemma generate_error_origin_witness :
  ([item_app] = [] ∧ PathError "open" "out/auth0_import.tf" EACCES
                     = errors_New "no import data available")
  ∨ ∃ t c,
      trace (generateTerraformConfigFiles faults_import_denied fit0 "out" [item_app]
               world0).2 = trace world0 ++ t
      ∧ (c, Some (PathError "open" "out/auth0_import.tf" EACCES)) ∈ t
      ∧ (file_call c = true ∨ mkdir_call c = true).
Proof.
  apply (generate_error_origin faults_import_denied fit0 "out" [item_app] world0).
  vm_compute. reflexivity.
Defined.

Lemma output_dir_trailing_slash_witness :
  mainPath "out/" = mainPath "out" ∧ importPath "out/" = importPath "out".
Proof.
  apply (output_dir_trailing_slash "out"). discriminate.
Defined.

Lemma createImportFile_lines_witness :
  ∃ content,
    files (createImportFile no_faults fit0 "out" [item_app; item_api] world0).2
      !! importPath "out" = Some content
    ∧ lines content
      = header_lines ++ flat_map record_lines [item_app; item_api] ++ [""; ""].
Proof.
  apply (createImportFile_lines no_faults fit0 "out" [item_app; item_api] world0).
  - vm_compute. reflexivity.
  - repeat constructor.
Defined.

Lemma createImportFile_import_count_witness :
  ∃ content,
    files (createImportFile no_faults fit0 "out" [item_app; item_api] world0).2
      !! importPath "out" = Some content
    ∧ length (filter (λ l, l = "import {") (lines content)) = 2%nat.
Proof.
  apply (createImportFile_import_count no_faults fit0 "out" [item_app; item_api] world0).
  - vm_compute. reflexivity.
  - repeat constructor.
Defined.

Lemma command_no_records_witness :
  generateTerraformCmdRun no_faults fit0 (λ _ : unit, fetch_ok [])
    {| api := tt |} {| OutputDIR := "out" |} {| Context_ := tt |} [] world1
  = (Some (errors_New "no import data available"), world1).
Proof.
  apply (command_no_records no_faults fit0 (λ _ : unit, fetch_ok [])).
  reflexivity.
Defined.

Lemma command_success_witness :
  rendered (generateTerraformCmdRun no_faults fit0 (λ _ : unit, fetch_ok [item_app])
              {| api := tt |} {| OutputDIR := "out" |} {| Context_ := tt |} []
              world1).2
  = [successMessage; quickstartMessage].
Proof.
  apply (command_success no_faults fit0 (λ _ : unit, fetch_ok [item_app])
           {| api := tt |} {| OutputDIR := "out" |} {| Context_ := tt |} []
           [item_app] world1).
  - reflexivity.
  - vm_compute. reflexivity.
Defined.

(** The disk fills up while the identifier is written: five of its
    characters reach the file, and the run stops there. *)
Example generate_disk_full :
  generateTerraformConfigFiles faults_disk_full fit5 "out" [item_app] world0
  = (Some (PathError "write" "out/auth0_import.tf" ENOSPC),
     {| files := {[ "out/main.tf" := mainFileContent;
                    "out/auth0_import.tf" :=
                      headerComment +:+ nl +:+ "import {" +:+ nl +:+
                      "  id = " +:+ dq +:+ "auth0" ]};
        trace :=
          [ (MkdirAll "out" 493, None);
            (Create "out/main.tf", None);
            (Write "out/main.tf" mainFileContent, None);
            (Close "out/main.tf", None);
            (Create "out/auth0_import.tf", None);
            (Write "out/auth0_import.tf" headerComment, None);
            (Write "out/auth0_import.tf"
               (nl +:+ "import {" +:+ nl +:+ "  id = " +:+ dq), None);
            (Write "out/auth0_import.tf" "auth0|123",
               Some (PathError "write" "out/auth0_import.tf" ENOSPC));
            (Close "out/auth0_import.tf", None) ];
        rendered := [] |}).
Proof. vm_compute. reflexivity. Qed.
